(** * ansibug: breakpoint registry, debug state and transport

    A shallow embedding of the parts of ansibug that manage line
    breakpoints ([ansibug/_debuggee.py]), decide whether an execution
    thread stops at a task boundary ([strategy/debug.py]), guard socket
    operations with a cancellation token ([ansibug/_socket_helper.py]) and
    pack/unpack protocol entities ([ansibug/dap/_types.py]).

    Python [int] is [Z]; [None] is [option]; a raised exception is the
    [None] of an [option] result unless a dedicated error type is needed.
    Python dicts whose iteration order matters are association lists in
    insertion order; [_source_info] is a [gmap]. *)

From Stdlib Require Import ZArith List String Bool Lia.
From stdpp Require Import base gmap strings list.
Import ListNotations.
Set Warnings "-register-all".
Open Scope string_scope.
Open Scope Z_scope.

(* ------------------------------------------------------------------ *)
(** ** Python helpers *)

(** [len(l)] *)
Definition len {A} (l : list A) : Z := Z.of_nat (length l).

(** [l[i]] with Python's negative indexing; [None] is an [IndexError]. *)
Definition py_get {A} (l : list A) (i : Z) : option A :=
  if i <? 0 then
    if i + len l <? 0 then None else nth_error l (Z.to_nat (i + len l))
  else nth_error l (Z.to_nat i).

(** [l[i] = x]; [None] is an [IndexError]. *)
Definition py_set {A} (l : list A) (i : Z) (x : A) : option (list A) :=
  let j := if i <? 0 then i + len l else i in
  if (j <? 0) || (len l <=? j) then None
  else Some (<[Z.to_nat j := x]> l).

(** [x or ""] for an optional string. *)
Definition or_empty (s : option string) : string :=
  match s with Some p => p | None => "" end.

(** [d[k] = v] on a dict kept as an association list in insertion order:
    an existing key is updated in place, a new key goes at the end. *)
Fixpoint dict_set {V} (d : list (Z * V)) (k : Z) (v : V) : list (Z * V) :=
  match d with
  | [] => [(k, v)]
  | (k', v') :: rest =>
      if k' =? k then (k, v) :: rest else (k', v') :: dict_set rest k v
  end.

(* ------------------------------------------------------------------ *)
(** ** Protocol entities ([dap/_types.py]) *)

(** A JSON-like value as produced by [pack] and consumed by [unpack]. *)
Inductive json :=
| JNull
| JBool (b : bool)
| JInt (z : Z)
| JStr (s : string)
| JList (l : list json)
| JObj (kv : list (string * json)).

Module Checksum.
Record t := mk { algorithm : string; checksum : string }.
End Checksum.

Module Source.
Inductive t := mk {
  name : option string;
  path : option string;
  source_reference : Z;
  presentation_hint : string;
  origin : option string;
  sources : list t;
  adapter_data : json;
  checksums : list Checksum.t }.

(** [Source(name=..., path=...)] with the dataclass defaults. *)
Definition make (name path : option string) : t :=
  mk name path 0 "normal" None [] JNull [].
End Source.

Module Breakpoint.
Record t := mk {
  id : option Z;
  verified : bool;
  message : option string;
  source : option Source.t;
  line : option Z;
  column : option Z;
  end_line : option Z;
  end_column : option Z;
  instruction_reference : option string;
  offset : option Z }.

(** [Breakpoint(id=, verified=, message=, source=, line=, end_line=)]
    with the remaining fields at their dataclass default [None]. *)
Definition make (id : Z) (verified : bool) (message : option string)
    (source : Source.t) (line end_line : option Z) : t :=
  mk (Some id) verified message (Some source) line None end_line None None None.
End Breakpoint.

Module SourceBreakpoint.
Record t := mk {
  line : Z;
  column : option Z;
  condition : option string;
  hit_condition : option string;
  log_message : option string }.
End SourceBreakpoint.

Module Thread.
Record t := mk { id : Z; name : string }.
End Thread.

(** The fields of [dap.SetBreakpointsRequest] the handler reads. *)
Module SetBreakpointsRequest.
Record t := mk {
  seq : Z;
  source : Source.t;
  breakpoints : list SourceBreakpoint.t;
  source_modified : bool }.
End SetBreakpointsRequest.

(** Outbound messages put on [_send_queue]. *)
Inductive ProtocolMessage :=
| SetBreakpointsResponse (request_seq : Z) (breakpoints : list Breakpoint.t)
| BreakpointEvent (reason : string) (breakpoint : Breakpoint.t).

(* ------------------------------------------------------------------ *)
(** ** The debugger ([_debuggee.py]) *)

Module AnsibleLineBreakpoint.
Record t := mk {
  id : Z;
  source : Source.t;
  source_breakpoint : SourceBreakpoint.t;
  breakpoint : Breakpoint.t }.

(** [self.source.path or ""] *)
Definition path (b : t) : string := or_empty (Source.path (source b)).
End AnsibleLineBreakpoint.

(** A line-validity entry: [None] continuation, [Some 0] not breakable,
    [Some n] (the code registers 1) start of a breakpoint range. *)
Abbreviation line_info := (list (option Z)).

Module AnsibleDebugger.
Record t := mk {
  connected : bool;
  breakpoints : list (Z * AnsibleLineBreakpoint.t);
  breakpoint_counter : Z;
  source_info : gmap string line_info;
  send_queue : list ProtocolMessage }.
End AnsibleDebugger.

(** The two loops of the resolution, as both copies of it write them. *)

(** [while line_type is None: start_line -= 1; line_type = lines[start_line]]
    (the fuel bounds the walk; [None] is an [IndexError] or fuel out). *)
Fixpoint scan_back (fuel : nat) (lines : line_info) (start_line : Z)
    (line_type : option Z) : option (Z * Z) :=
  match line_type with
  | Some ty => Some (start_line, ty)
  | None =>
      match fuel with
      | O => None
      | S fuel' =>
          match py_get lines (start_line - 1) with
          | None => None
          | Some ty => scan_back fuel' lines (start_line - 1) ty
          end
      end
  end.

(** [while end_line < len(lines) and lines[end_line] is None: end_line += 1];
    called with [fuel = len(lines) - end_line], which bounds the loop. *)
Fixpoint scan_fwd (fuel : nat) (lines : line_info) (end_line : Z) : option Z :=
  match fuel with
  | O => Some end_line
  | S fuel' =>
      if end_line <? len lines then
        match py_get lines end_line with
        | None => None
        | Some None => scan_fwd fuel' lines (end_line + 1)
        | Some (Some _) => Some end_line
        end
      else Some end_line
  end.

Definition back_fuel (lines : line_info) : nat := S (2 * length lines).

(** [_debuggee.py] lines 570-597: the resolution inside the
    [SetBreakpointsRequest] handler, for a path with line information. *)
Definition resolve_in_set_breakpoints (source_info : line_info)
    (source_breakpoint : SourceBreakpoint.t) (bp_id : Z) (source : Source.t)
    : option Breakpoint.t :=
  let start_line := Z.min (SourceBreakpoint.line source_breakpoint) (len source_info - 1) in
  let end_line := start_line + 1 in
  match py_get source_info start_line with
  | None => None
  | Some line_type =>
  match scan_back (back_fuel source_info) source_info start_line line_type with
  | None => None
  | Some (start_line, line_type) =>
  match scan_fwd (Z.to_nat (len source_info - end_line)) source_info end_line with
  | None => None
  | Some end_line =>
  let end_line := Z.min (end_line - 1) (len source_info) in
  let '(verified, bp_msg) :=
    if line_type =? 0 then (false, Some "Breakpoint cannot be set here.")
    else (true, None) in
  Some (Breakpoint.make bp_id verified bp_msg source (Some start_line) (Some end_line))
  end end end.

(** [_debuggee.py] lines 374-393: the resolution inside
    [register_path_breakpoint]; returns [(verified, bp_msg, start_line,
    end_line)]. *)
Definition resolve_in_register (file_lines : line_info)
    (source_breakpoint : SourceBreakpoint.t)
    : option (bool * option string * Z * Z) :=
  let start_line := Z.min (SourceBreakpoint.line source_breakpoint) (len file_lines - 1) in
  let end_line := start_line + 1 in
  match py_get file_lines start_line with
  | None => None
  | Some line_type =>
  match scan_back (back_fuel file_lines) file_lines start_line line_type with
  | None => None
  | Some (start_line, line_type) =>
  match scan_fwd (Z.to_nat (len file_lines - end_line)) file_lines end_line with
  | None => None
  | Some end_line =>
  let end_line := Z.min (end_line - 1) (len file_lines) in
  let '(verified, bp_msg) :=
    if line_type =? 0 then (false, Some "Breakpoint cannot be set here.")
    else (true, None) in
  Some (verified, bp_msg, start_line, end_line)
  end end end.

(** The resolution algorithm as the specification words it (section 4.5,
    steps 1-4), stated over the entries [V[i]] of a validity sequence. *)
Module SpecResolution.
(** [V[i]] for an index inside the sequence. *)
Definition entry (V : line_info) (i : Z) : option Z :=
  match nth_error V (Z.to_nat i) with Some e => e | None => None end.

Definition is_continuation (V : line_info) (i : Z) : bool :=
  match entry V i with None => true | Some _ => false end.

(** A bounded [while cond: s = body(s)]. *)
Fixpoint while_loop {S} (n : nat) (cond : S -> bool) (body : S -> S) (s : S) : S :=
  match n with
  | O => s
  | S n' => if cond s then while_loop n' cond body (body s) else s
  end.

(** Returns [(verified, message, start, end)]. *)
Definition resolve (V : line_info) (L : Z) : bool * option string * Z * Z :=
  (* 1. *) let start := Z.min L (len V - 1) in
  (* 2. *) let start := while_loop (length V) (is_continuation V) (fun s => s - 1) start in
  (* 3. *) let end_ := start + 1 in
           let end_ := while_loop (length V)
                         (fun e => (e <? len V) && is_continuation V e) (fun e => e + 1) end_ in
           let end_ := Z.min (end_ - 1) (len V) in
  (* 4. *) match entry V start with
           | Some 0 => (false, Some "Breakpoint cannot be set here.", start, end_)
           | _ => (true, None, start, end_)
           end.
End SpecResolution.

(** A validity sequence as [register_path_breakpoint] builds it: it starts
    as [[0]] and only ever stores integers, so index 0 is never a
    continuation. *)
Definition lines_wf (V : line_info) : Prop := exists x, nth_error V 0 = Some (Some x).

Module ALB := AnsibleLineBreakpoint.
Module AD := AnsibleDebugger.

(** [_debuggee.py] lines 544-605: the loop over [msg.breakpoints] of the
    [SetBreakpointsRequest] handler. Returns the new counter, the new
    [_breakpoints] and the [breakpoint_info] list of the response. *)
Fixpoint set_breakpoints_loop (msg : SetBreakpointsRequest.t)
    (source_info : option line_info) (sbs : list SourceBreakpoint.t)
    (counter : Z) (bps : list (Z * ALB.t)) (breakpoint_info : list Breakpoint.t)
    : option (Z * list (Z * ALB.t) * list Breakpoint.t) :=
  match sbs with
  | [] => Some (counter, bps, breakpoint_info)
  | source_breakpoint :: rest =>
      let bp_id := counter in
      let counter := counter + 1 in
      let source := SetBreakpointsRequest.source msg in
      if SetBreakpointsRequest.source_modified msg then
        let bp := Breakpoint.make bp_id false
                    (Some "Cannot set breakpoint on a modified source.") source None None in
        set_breakpoints_loop msg source_info rest counter bps (breakpoint_info ++ [bp])
      else
        let obp :=
          match source_info with
          | None | Some [] =>
              Some (Breakpoint.make bp_id false
                      (Some "File has not been loaded by Ansible, cannot detect breakpoints yet.")
                      source (Some (SourceBreakpoint.line source_breakpoint)) None)
          | Some lines => resolve_in_set_breakpoints lines source_breakpoint bp_id source
          end in
        match obp with
        | None => None
        | Some bp =>
            set_breakpoints_loop msg source_info rest counter
              (dict_set bps bp_id (ALB.mk bp_id source source_breakpoint bp))
              (breakpoint_info ++ [bp])
        end
  end.

(** [_debuggee.py] lines 531-611: [process_message(SetBreakpointsRequest)]. *)
Definition process_set_breakpoints (self : AD.t) (msg : SetBreakpointsRequest.t)
    : option AD.t :=
  let source_path := or_empty (Source.path (SetBreakpointsRequest.source msg)) in
  let source_info := AD.source_info self !! source_path in
  let bps := List.filter (fun '(_, b) => negb (String.eqb (ALB.path b) source_path))
               (AD.breakpoints self) in
  match set_breakpoints_loop msg source_info (SetBreakpointsRequest.breakpoints msg)
          (AD.breakpoint_counter self) bps [] with
  | None => None
  | Some (counter, bps, breakpoint_info) =>
      Some (AD.mk (AD.connected self) bps counter (AD.source_info self)
              (AD.send_queue self ++
                 [SetBreakpointsResponse (SetBreakpointsRequest.seq msg) breakpoint_info]))
  end.

(** [_debuggee.py] lines 370-413: re-resolve every breakpoint of [path]
    against the updated lines; a changed one is replaced in place and a
    "changed" event is queued for it. *)
Fixpoint reresolve_loop (path : string) (file_lines : line_info)
    (bps : list (Z * ALB.t)) : option (list (Z * ALB.t) * list ProtocolMessage) :=
  match bps with
  | [] => Some ([], [])
  | (k, b) :: rest =>
      if negb (String.eqb (ALB.path b) path) then
        match reresolve_loop path file_lines rest with
        | None => None
        | Some (rest', evs) => Some ((k, b) :: rest', evs)
        end
      else
        match resolve_in_register file_lines (ALB.source_breakpoint b) with
        | None => None
        | Some (verified, bp_msg, start_line, end_line) =>
            let old := ALB.breakpoint b in
            if bool_decide (Breakpoint.verified old <> verified)
               || bool_decide (Breakpoint.line old <> Some start_line)
               || bool_decide (Breakpoint.end_line old <> Some end_line) then
              let bp := Breakpoint.make (ALB.id b) verified bp_msg (ALB.source b)
                          (Some start_line) (Some end_line) in
              match reresolve_loop path file_lines rest with
              | None => None
              | Some (rest', evs) =>
                  Some ((k, ALB.mk (ALB.id b) (ALB.source b) (ALB.source_breakpoint b) bp)
                          :: rest', BreakpointEvent "changed" bp :: evs)
              end
            else
              match reresolve_loop path file_lines rest with
              | None => None
              | Some (rest', evs) => Some ((k, b) :: rest', evs)
              end
        end
  end.

(** [_debuggee.py] lines 345-413: [register_path_breakpoint(path, line,
    bp_type)], the [learn] operation of the specification. *)
Definition register_path_breakpoint (self : AD.t) (path : string) (line bp_type : Z)
    : option AD.t :=
  let file_lines := default [Some 0] (AD.source_info self !! path) in
  let file_lines := (file_lines ++ repeat None (Z.to_nat (1 + line - len file_lines)))%list in
  match py_set file_lines line (Some bp_type) with
  | None => None
  | Some file_lines =>
      match reresolve_loop path file_lines (AD.breakpoints self) with
      | None => None
      | Some (bps, evs) =>
          Some (AD.mk (AD.connected self) bps (AD.breakpoint_counter self)
                  (<[path := file_lines]> (AD.source_info self))
                  (AD.send_queue self ++ evs)%list)
      end
  end.

(** Does breakpoint [b] match [path] and [line] in [get_breakpoint]? *)
Definition bp_matches (path : string) (line : Z) (b : ALB.t) : bool :=
  String.eqb (ALB.path b) path
  && match Breakpoint.line (ALB.breakpoint b) with None => true | Some l => l <=? line end
  && match Breakpoint.end_line (ALB.breakpoint b) with None => true | Some e => line <=? e end.

(** [_debuggee.py] lines 283-300: [get_breakpoint(path, line)]. *)
Definition get_breakpoint (self : AD.t) (path : string) (line : Z) : option ALB.t :=
  if negb (AD.connected self) then None
  else option_map snd (List.find (fun kb => bp_matches path line (snd kb)) (AD.breakpoints self)).

(* ------------------------------------------------------------------ *)
(** ** Task boundaries ([strategy/debug.py]) *)

(** An Ansible task or block with its [_parent] chain; [is_task] is
    [isinstance(obj, Task)] (a [Block] otherwise). *)
Module Task.
Inductive t := mk {
  uuid : string;
  is_task : bool;
  action : string;
  parent : option t }.
End Task.

Inductive stepping := StepIn | StepOut | StepOver.

Module AnsibleThread.
Record t := mk {
  id : Z;
  stepping_type : option stepping;
  stepping_task : option Task.t }.
End AnsibleThread.

(** [while task := task._parent: if isinstance(task, Task): break] *)
Fixpoint enclosing_task (task : Task.t) : option Task.t :=
  match task with
  | Task.mk _ _ _ p =>
      match p with
      | None => None
      | Some p' => if Task.is_task p' then Some p' else enclosing_task p'
      end
  end.

(** Some ancestor of [task] has [_uuid == u]. *)
Fixpoint has_ancestor_uuid (u : string) (task : Task.t) : bool :=
  match task with
  | Task.mk _ _ _ p =>
      match p with
      | None => false
      | Some p' => String.eqb (Task.uuid p') u || has_ancestor_uuid u p'
      end
  end.

(** [getattr(x, "_uuid", None)] *)
Definition uuid_of (x : option Task.t) : option string := option_map Task.uuid x.

(** [AnsibleThread.break_step_over] *)
Definition break_step_over (thread : AnsibleThread.t) (task : Task.t) : bool :=
  match AnsibleThread.stepping_type thread, AnsibleThread.stepping_task thread with
  | Some StepOver, Some st =>
      bool_decide (uuid_of (enclosing_task st) = uuid_of (enclosing_task task))
  | _, _ => false
  end.

(** [AnsibleThread.break_step_in] *)
Definition break_step_in (thread : AnsibleThread.t) : bool :=
  match AnsibleThread.stepping_type thread with Some StepIn => true | _ => false end.

(** [AnsibleThread.break_step_out] *)
Definition break_step_out (thread : AnsibleThread.t) (task : Task.t) : bool :=
  match AnsibleThread.stepping_type thread, AnsibleThread.stepping_task thread with
  | Some StepOut, Some st => negb (has_ancestor_uuid (Task.uuid st) task)
  | _, _ => false
  end.

(** The result of Ansible's [Conditional.evaluate_conditional] (an external
    collaborator): a truth value, or an [AnsibleError], the exception it
    raises for every failure of the expression. *)
Inductive cond_outcome :=
| CondValue (b : bool)
| CondAnsibleError (msg : string).

Inductive StoppedReason := STEP | BREAKPOINT.

(** [strategy/debug.py] lines 226-265: at a task boundary of [thread] for
    [task] located at [path:line], whether the thread stops and with which
    [(reason, description)]; [None] means it keeps running. *)
Definition stop_decision (dbg : AD.t) (thread : AnsibleThread.t) (task : Task.t)
    (path : string) (line : Z) (evaluate_conditional : string -> cond_outcome)
    : option (StoppedReason * string) :=
  let line_breakpoint := get_breakpoint dbg path line in
  let line_breakpoint :=
    match line_breakpoint with
    | Some b =>
        match SourceBreakpoint.condition (ALB.source_breakpoint b) with
        | Some cond =>
            if String.eqb cond "" then Some b
            else match evaluate_conditional cond with
                 | CondValue true => Some b
                 | CondValue false => None
                 (* Treat a broken template as a false condition result. *)
                 | CondAnsibleError _ => None
                 end
        | None => Some b
        end
    | None => None
    end in
  if break_step_over thread task then Some (STEP, "Step over")
  else if break_step_out thread task then Some (STEP, "Step out")
  else if break_step_in thread then Some (STEP, "Step in")
  else if negb (match AnsibleThread.stepping_type thread with Some StepOut => true | _ => false end)
          && match line_breakpoint with Some _ => true | None => false end then Some (BREAKPOINT, "Breakpoint hit")
  else None.

(* ------------------------------------------------------------------ *)
(** ** Session end: [_recv_task] and [AnsibleDebugState.ended] *)

(** The part of [AnsibleDebugState] that [ended] and the stepping wait
    touch: [_waiting_threads] (thread id to requested stepping) and the
    number of [ended()] calls received so far. *)
Module DebugState.
Record t := mk {
  waiting_threads : list (Z * option stepping);
  ended_calls : nat }.
End DebugState.

(** [strategy/debug.py] lines 401-404: [ended()] replaces
    [_waiting_threads] by an empty dict and notifies every waiter. *)
Definition ended (st : DebugState.t) : DebugState.t :=
  DebugState.mk [] (S (DebugState.ended_calls st)).

(** The predicate a thread stopped at a task boundary waits on
    ([strategy/debug.py] line 273): [tid in self._waiting_threads]. After
    every [notify_all] the waiter re-checks it and returns only when true. *)
Definition wait_released (st : DebugState.t) (tid : Z) : bool :=
  existsb (fun kv => fst kv =? tid) (DebugState.waiting_threads st).

(** [strategy/debug.py] lines 610-619: [_continue(thread_ids, action)]. *)
Definition continue_threads (st : DebugState.t) (tids : list Z) (action : option stepping)
    : DebugState.t :=
  DebugState.mk (fold_left (fun w tid => dict_set w tid action) tids
                   (DebugState.waiting_threads st))
                (DebugState.ended_calls st).

Inductive socket_mode := Connect | Listen.

(** How one iteration of the outer loop of [_recv_task] ends. *)
Inductive connection_outcome :=
| WaitCancelled     (** [wait_for_dap_server] raised [CancelledError] *)
| WaitFailed        (** [wait_for_dap_server] raised another exception *)
| PeerClosed        (** a client connected, then its connection hit EOF and
                        [connection_closed] queued [None] *)
| SessionCancelled. (** a client connected, then the token was cancelled,
                        which ends the receive side and queues [None] *)

(** [_debuggee.py] lines 443-468: the outer loop. [cancelled] is the
    token's latch: once set, the next [wait_for_dap_server] raises
    [CancelledError] in [with_cancel]. Returns [true] when the loop is left
    and [false] while it still waits for or serves a client. *)
Fixpoint recv_loop (mode : socket_mode) (cancelled : bool)
    (outcomes : list connection_outcome) : bool :=
  if cancelled then true
  else
    match outcomes with
    | [] => false
    | o :: rest =>
        match o with
        | WaitCancelled | WaitFailed => true
        | PeerClosed =>
            match mode with Connect => true | Listen => recv_loop mode false rest end
        | SessionCancelled =>
            match mode with Connect => true | Listen => recv_loop mode true rest end
        end
    end.

(** [_debuggee.py] lines 420-477: [_recv_task] against the strategy
    registered at the end ([None] when none is). Returns whether the task
    finished and the strategy's state. *)
Definition recv_task (mode : socket_mode) (outcomes : list connection_outcome)
    (strategy : option DebugState.t) : bool * option DebugState.t :=
  if recv_loop mode false outcomes then (true, option_map ended strategy)
  else (false, strategy).

(* ------------------------------------------------------------------ *)
(** ** Cancellable socket operations ([_socket_helper.py]) *)

Module SocketCancellationToken.
Record t := mk {
  cancel_funcs : list nat;
  cancel_id : nat;
  cancelled : bool }.

(** [cancel()]: set the latch, run every registered function, clear. *)
Definition cancel (tok : t) : t := mk [] (cancel_id tok) true.

(** Entering [with_cancel]: [CancelledError] once cancelled, else a new
    registration. *)
Definition register (tok : t) : option (nat * t) :=
  if cancelled tok then None
  else Some (cancel_id tok,
             mk (cancel_funcs tok ++ [cancel_id tok])%list (S (cancel_id tok)) false).

(** Leaving [with_cancel]: [self._cancel_funcs.pop(cancel_id, None)]. *)
Definition unregister (tok : t) (cid : nat) : t :=
  mk (List.filter (fun c => negb (Nat.eqb c cid)) (cancel_funcs tok))
     (cancel_id tok) (cancelled tok).
End SocketCancellationToken.

Module SCT := SocketCancellationToken.

(** What the underlying socket call does: completes, or raises [OSError]. *)
Inductive sock_outcome := SockOk | SockOSError.

(** How a guarded operation ends. *)
Inductive op_result := OpOk | RaisedCancelledError | RaisedOSError.

Inductive guarded_op := Accept | ConnectOp | RecvInto | SendAll.

(** One guarded operation started on token [tok]; [cancel_during] says
    whether [cancel()] ran while the socket call was in flight, and
    [outcome] what the socket call then did. Returns the result and the
    token afterwards. Lines 143-216. *)
Definition run_guarded (op : guarded_op) (tok : SCT.t) (cancel_during : bool)
    (outcome : sock_outcome) : op_result * SCT.t :=
  match SCT.register tok with
  | None => (RaisedCancelledError, tok)
  | Some (cid, tok1) =>
      let tok2 := if cancel_during then SCT.cancel tok1 else tok1 in
      let res :=
        match op with
        | Accept | ConnectOp =>
            match outcome with
            | SockOk => OpOk
            | SockOSError => if SCT.cancelled tok2 then RaisedCancelledError else RaisedOSError
            end
        | RecvInto =>
            match outcome with
            | SockOSError => RaisedOSError
            | SockOk => if SCT.cancelled tok2 then RaisedCancelledError else OpOk
            end
        | SendAll =>
            match outcome with
            | SockOSError =>
                match SCT.cancel_funcs tok2 with
                | [] => RaisedOSError
                | _ :: _ => RaisedCancelledError
                end
            | SockOk => if SCT.cancelled tok2 then RaisedCancelledError else OpOk
            end
        end in
      (res, SCT.unregister tok2 cid)
  end.

(* ------------------------------------------------------------------ *)
(** ** [pack] / [unpack] ([dap/_types.py]) *)

(** [k in obj] / [obj[k]] on the key-value list of a JSON object. *)
Fixpoint kv_lookup (k : string) (kv : list (string * json)) : option json :=
  match kv with
  | [] => None
  | (k', v) :: rest => if String.eqb k' k then Some v else kv_lookup k rest
  end.

(** [body.get(k, d)]; [None] when [body] is not a dict ([AttributeError]). *)
Definition dict_get (body : json) (k : string) (d : json) : option json :=
  match body with
  | JObj kv => Some (default d (kv_lookup k kv))
  | _ => None
  end.

(** [body[k]]; [None] on a missing key ([KeyError]) or a non-dict. *)
Definition dict_index (body : json) (k : string) : option json :=
  match body with JObj kv => kv_lookup k kv | _ => None end.

(** [k in body]; [None] when [body] is not a container. *)
Definition dict_contains (body : json) (k : string) : option bool :=
  match body with
  | JObj kv => Some (match kv_lookup k kv with Some _ => true | None => false end)
  | _ => None
  end.

(** Reading a JSON value into a typed field; [None] for a value the field's
    type cannot hold. *)
Definition to_opt_int (v : json) : option (option Z) :=
  match v with JNull => Some None | JInt z => Some (Some z) | _ => None end.
Definition to_opt_str (v : json) : option (option string) :=
  match v with JNull => Some None | JStr s => Some (Some s) | _ => None end.
Definition to_str (v : json) : option string :=
  match v with JStr s => Some s | _ => None end.
Definition to_bool (v : json) : option bool :=
  match v with JBool b => Some b | _ => None end.

Definition of_opt_int (o : option Z) : json :=
  match o with Some z => JInt z | None => JNull end.
Definition of_opt_str (o : option string) : json :=
  match o with Some s => JStr s | None => JNull end.

Fixpoint map_opt {A B} (f : A -> option B) (l : list A) : option (list B) :=
  match l with
  | [] => Some []
  | x :: rest => y ← f x; ys ← map_opt f rest; Some (y :: ys)
  end.

Fixpoint json_size (j : json) : nat :=
  match j with
  | JList l => S (fold_right (fun x acc => json_size x + acc)%nat O l)
  | JObj kv => S (fold_right (fun kv' acc => json_size (snd kv') + acc)%nat O kv)
  | _ => 1%nat
  end.

(** [Checksum.pack] / [Checksum.unpack] *)
Definition checksum_pack (c : Checksum.t) : json :=
  JObj [("algorithm", JStr (Checksum.algorithm c)); ("checksum", JStr (Checksum.checksum c))].

Definition checksum_unpack (body : json) : option Checksum.t :=
  a ← dict_index body "algorithm" ≫= to_str;
  c ← dict_index body "checksum" ≫= to_str;
  Some (Checksum.mk a c).

(** [Source.pack] *)
Fixpoint source_pack (s : Source.t) : json :=
  match s with
  | Source.mk name path source_reference presentation_hint origin sources
      adapter_data checksums =>
      JObj [("name", of_opt_str name);
            ("path", of_opt_str path);
            ("sourceReference", JInt source_reference);
            ("presentationHint", JStr presentation_hint);
            ("origin", of_opt_str origin);
            ("sources", JList (map source_pack sources));
            ("adapterData", adapter_data);
            ("checksums", JList (map checksum_pack checksums))]
  end.

(** [Source.unpack]; the fuel is the size of the JSON value, which bounds
    the nesting of [sources]. *)
Fixpoint source_unpack_fuel (n : nat) (body : json) : option Source.t :=
  match n with
  | O => None
  | S n' =>
      name ← dict_get body "name" JNull ≫= to_opt_str;
      path ← dict_get body "path" JNull ≫= to_opt_str;
      sref ← dict_get body "sourceReference" JNull;
      source_reference ← (match sref with
                          | JNull => Some 0
                          | JInt z => Some z
                          | _ => None
                          end);
      presentation_hint ← dict_get body "presentationHint" (JStr "normal") ≫= to_str;
      origin ← dict_get body "origin" JNull ≫= to_opt_str;
      srcs ← dict_get body "sources" (JList []);
      sources ← (match srcs with
                 | JList l => map_opt (source_unpack_fuel n') l
                 | _ => None
                 end);
      adapter_data ← dict_get body "adapterData" JNull;
      cks ← dict_get body "checksums" (JList []);
      checksums ← (match cks with JList l => map_opt checksum_unpack l | _ => None end);
      Some (Source.mk name path source_reference presentation_hint origin sources
              adapter_data checksums)
  end.

Definition source_unpack (body : json) : option Source.t :=
  source_unpack_fuel (json_size body) body.

(** [Breakpoint.pack] *)
Definition breakpoint_pack (b : Breakpoint.t) : json :=
  JObj [("id", of_opt_int (Breakpoint.id b));
        ("verified", JBool (Breakpoint.verified b));
        ("message", of_opt_str (Breakpoint.message b));
        ("source", match Breakpoint.source b with
                   | Some s => source_pack s
                   | None => JNull
                   end);
        ("line", of_opt_int (Breakpoint.line b));
        ("column", of_opt_int (Breakpoint.column b));
        ("endLine", of_opt_int (Breakpoint.end_line b));
        ("endColumn", of_opt_int (Breakpoint.end_column b));
        ("instructionReference", of_opt_str (Breakpoint.instruction_reference b));
        ("offset", of_opt_int (Breakpoint.offset b))].

(** [Breakpoint.unpack]; [None] is a raised exception. *)
Definition breakpoint_unpack (obj : json) : option Breakpoint.t :=
  id ← dict_get obj "id" JNull ≫= to_opt_int;
  verified ← dict_get obj "verified" (JBool false) ≫= to_bool;
  message ← dict_get obj "message" JNull ≫= to_opt_str;
  has_source ← dict_contains obj "source";
  source ← (match has_source return option (option Source.t) with
            | true => option_map Some (dict_index obj "source" ≫= source_unpack)
            | false => Some None
            end);
  line ← dict_get obj "line" JNull ≫= to_opt_int;
  column ← dict_get obj "column" JNull ≫= to_opt_int;
  end_line ← dict_get obj "endLine" JNull ≫= to_opt_int;
  end_column ← dict_get obj "endColumn" JNull ≫= to_opt_int;
  instruction_reference ← dict_get obj "instructionReference" JNull ≫= to_opt_str;
  offset ← dict_get obj "offset" JNull ≫= to_opt_int;
  Some (Breakpoint.mk id verified message source line column end_line end_column
          instruction_reference offset).

(** [obj.get(k)] read as an [int] / a [str]. *)
Definition to_int (v : json) : option Z :=
  match v with JInt z => Some z | _ => None end.

(** A JSON list of strings, as [ExceptionPathSegment.names] holds it. *)
Definition to_str_list (v : json) : option (list string) :=
  match v with JList l => map_opt to_str l | _ => None end.

(** A JSON object of strings, as [Message.variables] holds it (a dict kept
    in insertion order). *)
Definition to_str_dict (v : json) : option (list (string * string)) :=
  match v with
  | JObj kv => map_opt (fun '(k, x) => s ← to_str x; Some (k, s)) kv
  | _ => None
  end.

Module Capabilities.
Record t := mk { supports_configuration_done_request : bool }.
End Capabilities.

Module ExceptionFilterOptions.
Record t := mk { filter_id : string; condition : option string }.
End ExceptionFilterOptions.

Module ExceptionPathSegment.
Record t := mk { negate : bool; names : list string }.
End ExceptionPathSegment.

Module ExceptionOptions.
Record t := mk { path : list ExceptionPathSegment.t; break_mode : string }.
End ExceptionOptions.

Module Message.
Record t := mk {
  id : Z;
  format : string;
  variables : list (string * string);
  send_telemetry : bool;
  show_user : bool;
  url : option string;
  url_label : option string }.
End Message.

(** [Capabilities.pack] / [Capabilities.unpack] *)
Definition capabilities_pack (c : Capabilities.t) : json :=
  JObj [("supportsConfigurationDoneRequest",
         JBool (Capabilities.supports_configuration_done_request c))].

Definition capabilities_unpack (obj : json) : option Capabilities.t :=
  s ← dict_get obj "supportsConfigurationDoneRequest" (JBool false) ≫= to_bool;
  Some (Capabilities.mk s).

(** [ExceptionFilterOptions.pack] / [ExceptionFilterOptions.unpack] *)
Definition exception_filter_options_pack (o : ExceptionFilterOptions.t) : json :=
  JObj [("filterId", JStr (ExceptionFilterOptions.filter_id o));
        ("condition", of_opt_str (ExceptionFilterOptions.condition o))].

Definition exception_filter_options_unpack (body : json) : option ExceptionFilterOptions.t :=
  filter_id ← dict_index body "filterId" ≫= to_str;
  condition ← dict_get body "condition" JNull ≫= to_opt_str;
  Some (ExceptionFilterOptions.mk filter_id condition).

(** [ExceptionPathSegment.pack] / [ExceptionPathSegment.unpack] *)
Definition exception_path_segment_pack (p : ExceptionPathSegment.t) : json :=
  JObj [("negate", JBool (ExceptionPathSegment.negate p));
        ("names", JList (map JStr (ExceptionPathSegment.names p)))].

Definition exception_path_segment_unpack (body : json) : option ExceptionPathSegment.t :=
  negate ← dict_get body "negate" (JBool false) ≫= to_bool;
  names ← dict_get body "names" (JList []) ≫= to_str_list;
  Some (ExceptionPathSegment.mk negate names).

(** [ExceptionOptions.pack] / [ExceptionOptions.unpack]: the [for] loop
    over [body.get("path", [])] runs before [body["breakMode"]] is read. *)
Definition exception_options_pack (o : ExceptionOptions.t) : json :=
  JObj [("path", JList (map exception_path_segment_pack (ExceptionOptions.path o)));
        ("breakMode", JStr (ExceptionOptions.break_mode o))].

Definition exception_options_unpack (body : json) : option ExceptionOptions.t :=
  ps ← dict_get body "path" (JList []);
  path ← (match ps with JList l => map_opt exception_path_segment_unpack l | _ => None end);
  break_mode ← dict_index body "breakMode" ≫= to_str;
  Some (ExceptionOptions.mk path break_mode).

(** [Message.pack] / [Message.unpack] *)
Definition message_pack (m : Message.t) : json :=
  JObj [("id", JInt (Message.id m));
        ("format", JStr (Message.format m));
        ("variables", JObj (map (fun '(k, v) => (k, JStr v)) (Message.variables m)));
        ("sendTelemetry", JBool (Message.send_telemetry m));
        ("showUser", JBool (Message.show_user m));
        ("url", of_opt_str (Message.url m));
        ("urlLabel", of_opt_str (Message.url_label m))].

Definition message_unpack (body : json) : option Message.t :=
  id ← dict_index body "id" ≫= to_int;
  format ← dict_index body "format" ≫= to_str;
  variables ← dict_get body "variables" (JObj []) ≫= to_str_dict;
  send_telemetry ← dict_get body "sendTelemetry" (JBool false) ≫= to_bool;
  show_user ← dict_get body "showUser" (JBool false) ≫= to_bool;
  url ← dict_get body "url" JNull ≫= to_opt_str;
  url_label ← dict_get body "urlLabel" JNull ≫= to_opt_str;
  Some (Message.mk id format variables send_telemetry show_user url url_label).

(** [SourceBreakpoint.pack] / [SourceBreakpoint.unpack] *)
Definition source_breakpoint_pack (b : SourceBreakpoint.t) : json :=
  JObj [("line", JInt (SourceBreakpoint.line b));
        ("column", of_opt_int (SourceBreakpoint.column b));
        ("condition", of_opt_str (SourceBreakpoint.condition b));
        ("hitCondition", of_opt_str (SourceBreakpoint.hit_condition b));
        ("logMessage", of_opt_str (SourceBreakpoint.log_message b))].

Definition source_breakpoint_unpack (body : json) : option SourceBreakpoint.t :=
  line ← dict_index body "line" ≫= to_int;
  column ← dict_get body "column" JNull ≫= to_opt_int;
  condition ← dict_get body "condition" JNull ≫= to_opt_str;
  hit_condition ← dict_get body "hitCondition" JNull ≫= to_opt_str;
  log_message ← dict_get body "logMessage" JNull ≫= to_opt_str;
  Some (SourceBreakpoint.mk line column condition hit_condition log_message).

(** [Thread.pack] / [Thread.unpack] *)
Definition thread_pack (th : Thread.t) : json :=
  JObj [("id", JInt (Thread.id th)); ("name", JStr (Thread.name th))].

Definition thread_unpack (body : json) : option Thread.t :=
  id ← dict_index body "id" ≫= to_int;
  name ← dict_index body "name" ≫= to_str;
  Some (Thread.mk id name).

(* ------------------------------------------------------------------ *)
(** ** Continue and step requests ([strategy/debug.py]) *)

(** [strategy/debug.py] lines 427-441: [continue_request]; returns the
    state and [all_threads_continued]. *)
Definition continue_request (st : DebugState.t) (single_thread : bool) (thread_id : Z)
    : DebugState.t * bool :=
  if single_thread then (continue_threads st [thread_id] None, false)
  else (continue_threads st (map fst (DebugState.waiting_threads st)) None, true).

(** Lines 592-608: [step_in], [step_out], [step_over]. *)
Definition step_in (st : DebugState.t) (thread_id : Z) : DebugState.t :=
  continue_threads st [thread_id] (Some StepIn).
Definition step_out (st : DebugState.t) (thread_id : Z) : DebugState.t :=
  continue_threads st [thread_id] (Some StepOut).
Definition step_over (st : DebugState.t) (thread_id : Z) : DebugState.t :=
  continue_threads st [thread_id] (Some StepOver).

(** [d.pop(k)] on a dict kept as an association list; [None] is a
    [KeyError]. *)
Fixpoint dict_pop {V} (d : list (Z * V)) (k : Z) : option (V * list (Z * V)) :=
  match d with
  | [] => None
  | (k', v) :: rest =>
      if k' =? k then Some (v, rest)
      else r ← dict_pop rest k; Some (fst r, (k', v) :: snd r)
  end.

(** [while stepping_task := stepping_task._parent: if isinstance(stepping_task,
    Task) and stepping_task.action in C._ACTION_ALL_INCLUDES: break]; the
    walrus leaves [None] when no ancestor qualifies. *)
Fixpoint include_ancestor (is_include : string -> bool) (task : Task.t) : option Task.t :=
  match task with
  | Task.mk _ _ _ p =>
      match p with
      | None => None
      | Some p' =>
          if Task.is_task p' && is_include (Task.action p') then Some p'
          else include_ancestor is_include p'
      end
  end.

(** [strategy/debug.py] lines 274-291: what a stopped thread does once
    [tid in self._waiting_threads] holds: pop its action and set its
    stepping mode. [is_include] is membership in
    [C._ACTION_ALL_INCLUDES]. *)
Definition resume_thread (is_include : string -> bool) (st : DebugState.t)
    (thread : AnsibleThread.t) (task : Task.t) : option (DebugState.t * AnsibleThread.t) :=
  let tid := AnsibleThread.id thread in
  match dict_pop (DebugState.waiting_threads st) tid with
  | None => None
  | Some (stepping_type, waiting) =>
      let st' := DebugState.mk waiting (DebugState.ended_calls st) in
      let stepping_type :=
        match stepping_type with
        | Some StepIn => if is_include (Task.action task) then Some StepIn else Some StepOver
        | s => s
        end in
      match stepping_type with
      | Some s =>
          let stepping_task :=
            match s with StepOut => include_ancestor is_include task | _ => Some task end in
          Some (st', AnsibleThread.mk tid (Some s) stepping_task)
      | None => Some (st', AnsibleThread.mk tid None None)
      end
  end.

(* ------------------------------------------------------------------ *)
(** ** [SocketHelper.recv] ([_socket_helper.py]) *)

(** Lines 86-106: [SocketHelper.recv(n)]. The peer's stream is [data], the
    bytes not read yet, then EOF; [counts] are the sizes the kernel hands
    out, one per [recv_into] call: a call asking for [k] bytes copies
    [min(c, k, len(data))] of them, so [0] only at EOF. Returns the bytes
    returned and the rest of the stream; [None] when [counts] runs out. *)
Fixpoint socket_recv_loop (counts : list Z) (n read : Z) (data buf : list Byte.byte)
    : option (list Byte.byte * list Byte.byte) :=
  if read <? n then
    match counts with
    | [] => None
    | c :: counts' =>
        let data_read := Z.min c (Z.min (n - read) (len data)) in
        let chunk := firstn (Z.to_nat data_read) data in
        let data := skipn (Z.to_nat data_read) data in
        let read := read + data_read in
        (* On a socket shutdown 0 bytes will be read. *)
        if data_read =? 0 then Some (buf ++ chunk, data)%list
        else socket_recv_loop counts' n read data (buf ++ chunk)%list
    end
  else Some (buf, data).

Definition socket_recv (counts : list Z) (n : Z) (data : list Byte.byte)
    : option (list Byte.byte * list Byte.byte) :=
  socket_recv_loop counts n 0 data [].

(* ------------------------------------------------------------------ *)
(** ** Auxiliary predicates and sample inputs used by the proofs *)

(** Where a forward walk from [a] may stop: at the end of the sequence or at
    a non-continuation entry. *)
Definition fwd_stop (V : line_info) (r : Z) : Prop :=
  r = len V \/ exists t, nth_error V (Z.to_nat r) = Some (Some t).

(** A thread that is not stepping, and a task inside a block. *)
Definition no_stepping_thread : AnsibleThread.t := AnsibleThread.mk 2 None None.
Definition play_task (uuid : string) : Task.t :=
  Task.mk uuid true "debug" (Some (Task.mk "block" false "" None)).

(** A playbook path, its [Source], a [SourceBreakpoint] at a line, and a
    connected debugger that knows nothing yet. *)
Definition main_path : string := "/p/main.yml".
Definition main_source : Source.t := Source.make (Some "main.yml") (Some main_path).
Definition sb_at (l : Z) : SourceBreakpoint.t := SourceBreakpoint.mk l None None None None.
Definition fresh_debugger : AD.t := AD.mk true [] 1 ∅ [].

(** [SetBreakpointsRequest] for [main_path] with breakpoints at [lines]. *)
Definition set_request (seq : Z) (lines : list Z) : SetBreakpointsRequest.t :=
  SetBreakpointsRequest.mk seq main_source (map sb_at lines) false.

(** The message of the handler's branch for a path without line
    information. *)
Definition not_loaded_message : string :=
  "File has not been loaded by Ansible, cannot detect breakpoints yet.".

(** A debugger holding one verified breakpoint at line 5 of [main_path]
    whose condition is [cond]. *)
Definition conditional_debugger (cond : string) : AD.t :=
  AD.mk true
    [(1, ALB.mk 1 main_source (SourceBreakpoint.mk 5 None (Some cond) None None)
           (Breakpoint.make 1 true None main_source (Some 5) (Some 5)))]
    2 ∅ [].

(** Every key of [_breakpoints] is below [_breakpoint_counter]: the
    counter starts at 1 with no breakpoints, the handler only adds keys it
    takes from the counter, and [register_path_breakpoint] keeps the keys. *)
Definition ids_below (self : AD.t) : Prop :=
  Forall (fun kb => fst kb < AD.breakpoint_counter self) (AD.breakpoints self).

(** The entry of [_breakpoints] is registered against [P]. *)
Definition on_path (P : string) (kb : Z * ALB.t) : bool := String.eqb (ALB.path (snd kb)) P.

(** Scenario B of the specification: two requests on the same path; this
    is the debugger after the first one. *)
Definition scenario_b_first : AD.t :=
  default fresh_debugger (process_set_breakpoints fresh_debugger (set_request 1 [5; 10])).

(** The resolution a breakpoint currently reports. *)
Definition triple (b : Breakpoint.t) : bool * option Z * option Z :=
  (Breakpoint.verified b, Breakpoint.line b, Breakpoint.end_line b).

(** Entry [kb'] is entry [kb] re-resolved against [V] after learning
    [path]: same key; an entry of another path is untouched; an entry of
    [path] keeps its breakpoint when the new resolution reports the same
    triple and is rebuilt from the new resolution otherwise. *)
Definition reresolved (path : string) (V : line_info) (kb kb' : Z * ALB.t) : Prop :=
  fst kb' = fst kb
  /\ let b := snd kb in
     if String.eqb (ALB.path b) path then
       exists verified msg s e,
         resolve_in_register V (ALB.source_breakpoint b) = Some (verified, msg, s, e)
         /\ snd kb' =
            (if bool_decide (triple (ALB.breakpoint b) = (verified, Some s, Some e)) then b
             else ALB.mk (ALB.id b) (ALB.source b) (ALB.source_breakpoint b)
                    (Breakpoint.make (ALB.id b) verified msg (ALB.source b)
                       (Some s) (Some e)))
     else kb' = kb.

(** One "changed" event, carrying the new breakpoint, for each entry of
    [path] whose reported triple differs before and after. *)
Definition changed_events (path : string) (old new : list (Z * ALB.t)) : list ProtocolMessage :=
  flat_map (fun '(o, n) =>
              if String.eqb (ALB.path (snd o)) path
                 && bool_decide (triple (ALB.breakpoint (snd o))
                                 <> triple (ALB.breakpoint (snd n)))
              then [BreakpointEvent "changed" (ALB.breakpoint (snd n))] else [])
           (combine old new).

(* ================================================================== *)
(** * Proofs *)

Open Scope list_scope.

(* ------------------------------------------------------------------ *)
(** ** The two loops of the resolution *)

Lemma py_get_nonneg {A} (l : list A) (i : Z) :
  0 <= i -> py_get l i = nth_error l (Z.to_nat i).
Proof. intros H. unfold py_get. destruct (Z.ltb_spec i 0); [lia | reflexivity]. Qed.

Lemma nth_error_in_range {A} (l : list A) (n : nat) :
  (n < length l)%nat -> exists x, nth_error l n = Some x.
Proof.
  intros H. destruct (nth_error l n) eqn:E; [eauto |].
  apply nth_error_None in E. lia.
Qed.

Lemma lookup_nth_error {A} (l : list A) (i : nat) : l !! i = nth_error l i.
Proof. revert i. induction l as [|x l IH]; intros [|i]; simpl; auto. Qed.

Lemma nth_error_range {A} (l : list A) (n : nat) (x : A) :
  nth_error l n = Some x -> (n < length l)%nat.
Proof. intros H. apply nth_error_Some. congruence. Qed.

(** The backward walk stops at the last non-continuation entry at or
    before its start. *)
Lemma scan_back_spec (V : line_info) (x0 : Z) :
  nth_error V 0 = Some (Some x0) ->
  forall fuel s e, 0 <= s -> (Z.to_nat s < fuel)%nat ->
  nth_error V (Z.to_nat s) = Some e ->
  exists b ty, scan_back fuel V s e = Some (b, ty) /\ 0 <= b <= s /\
    nth_error V (Z.to_nat b) = Some (Some ty) /\
    (forall k, b < k <= s -> nth_error V (Z.to_nat k) = Some None).
Proof.
  intros H0. induction fuel as [|fuel IH]; intros s e Hs Hf He; [lia |].
  destruct e as [ty |].
  - exists s, ty. repeat split; auto; lia.
  - destruct (Z.eq_dec s 0) as [-> | Hs0]; [change (Z.to_nat 0) with O in He; congruence |].
    simpl. rewrite py_get_nonneg by lia.
    pose proof (nth_error_range _ _ _ He) as Hlt.
    destruct (nth_error_in_range V (Z.to_nat (s - 1))) as [e' He']; [lia |].
    rewrite He'.
    destruct (IH (s - 1) e') as (b & ty & Hr & Hb & Hbt & Hk); try lia; auto.
    exists b, ty. rewrite Hr. repeat split; try lia; auto.
    intros k Hk'. destruct (Z.eq_dec k s) as [-> | Hne]; [exact He | apply Hk; lia].
Qed.

Lemma spec_back (V : line_info) (x0 : Z) :
  nth_error V 0 = Some (Some x0) ->
  forall n s, 0 <= s -> (Z.to_nat s < n)%nat -> (Z.to_nat s < length V)%nat ->
  let b := SpecResolution.while_loop n (SpecResolution.is_continuation V)
             (fun s => s - 1) s in
  0 <= b <= s /\ (exists ty, nth_error V (Z.to_nat b) = Some (Some ty)) /\
  (forall k, b < k <= s -> nth_error V (Z.to_nat k) = Some None).
Proof.
  intros H0. induction n as [|n IH]; intros s Hs Hn Hl; [lia |].
  simpl. destruct (nth_error_in_range V (Z.to_nat s)) as [e He]; [lia |].
  assert (Hc : SpecResolution.is_continuation V s
               = match e with None => true | Some _ => false end)
    by (unfold SpecResolution.is_continuation, SpecResolution.entry; rewrite He; reflexivity).
  rewrite Hc. destruct e as [ty |].
  - repeat split; try lia; eauto.
  - destruct (Z.eq_dec s 0) as [-> | Hs0]; [change (Z.to_nat 0) with O in He; congruence |].
    destruct (IH (s - 1)) as (Hb & Hty & Hk); try lia.
    repeat split; try lia; auto.
    intros k Hk'. destruct (Z.eq_dec k s) as [-> | Hne]; [exact He | apply Hk; lia].
Qed.

Lemma back_unique (V : line_info) (s b1 b2 : Z) :
  0 <= b1 <= s -> 0 <= b2 <= s ->
  (exists t, nth_error V (Z.to_nat b1) = Some (Some t)) ->
  (exists t, nth_error V (Z.to_nat b2) = Some (Some t)) ->
  (forall k, b1 < k <= s -> nth_error V (Z.to_nat k) = Some None) ->
  (forall k, b2 < k <= s -> nth_error V (Z.to_nat k) = Some None) ->
  b1 = b2.
Proof.
  intros H1 H2 [t1 Ht1] [t2 Ht2] Hk1 Hk2.
  destruct (Z.lt_trichotomy b1 b2) as [Hlt | [Heq | Hgt]]; auto.
  - rewrite Hk1 in Ht2 by lia. congruence.
  - rewrite Hk2 in Ht1 by lia. congruence.
Qed.


Lemma scan_fwd_spec (V : line_info) :
  forall fuel a, 0 <= a <= len V -> Z.to_nat (len V - a) = fuel ->
  exists r, scan_fwd fuel V a = Some r /\ a <= r <= len V /\ fwd_stop V r /\
    (forall k, a <= k < r -> nth_error V (Z.to_nat k) = Some None).
Proof.
  induction fuel as [|fuel IH]; intros a Ha Hf.
  - exists a. repeat split; try lia. left; lia.
  - simpl. destruct (Z.ltb_spec a (len V)) as [Hlt | Hge]; [| lia].
    rewrite py_get_nonneg by lia.
    destruct (nth_error_in_range V (Z.to_nat a)) as [e He]; [unfold len in *; lia |].
    rewrite He. destruct e as [t |].
    + exists a. repeat split; try lia. right; eauto.
    + destruct (IH (a + 1)) as (r & Hr & Hb & Hs & Hk); try lia.
      exists r. repeat split; try lia; auto.
      intros k Hk'. destruct (Z.eq_dec k a) as [-> | Hne]; [exact He | apply Hk; lia].
Qed.

Lemma spec_fwd (V : line_info) :
  forall n a, 0 <= a <= len V -> len V - a <= Z.of_nat n ->
  let r := SpecResolution.while_loop n
             (fun e => (e <? len V) && SpecResolution.is_continuation V e)
             (fun e => e + 1) a in
  a <= r <= len V /\ fwd_stop V r /\
  (forall k, a <= k < r -> nth_error V (Z.to_nat k) = Some None).
Proof.
  induction n as [|n IH]; intros a Ha Hn; simpl.
  - repeat split; try lia. left; lia.
  - destruct (Z.ltb_spec a (len V)) as [Hlt | Hge]; simpl.
    + destruct (nth_error_in_range V (Z.to_nat a)) as [e He]; [unfold len in *; lia |].
      assert (Hc : SpecResolution.is_continuation V a
                   = match e with None => true | Some _ => false end)
        by (unfold SpecResolution.is_continuation, SpecResolution.entry; rewrite He; reflexivity).
      rewrite Hc. destruct e as [t |]; simpl.
      * repeat split; try lia. right; eauto.
      * destruct (IH (a + 1)) as (Hb & Hs & Hk); try lia.
        repeat split; try lia; auto.
        intros k Hk'. destruct (Z.eq_dec k a) as [-> | Hne]; [exact He | apply Hk; lia].
    + repeat split; try lia. left; lia.
Qed.

Lemma fwd_unique (V : line_info) (a r1 r2 : Z) :
  a <= r1 <= len V -> a <= r2 <= len V -> fwd_stop V r1 -> fwd_stop V r2 ->
  (forall k, a <= k < r1 -> nth_error V (Z.to_nat k) = Some None) ->
  (forall k, a <= k < r2 -> nth_error V (Z.to_nat k) = Some None) ->
  r1 = r2.
Proof.
  intros H1 H2 S1 S2 K1 K2.
  destruct (Z.lt_trichotomy r1 r2) as [Hlt | [Heq | Hgt]]; auto.
  - destruct S1 as [-> | [t Ht]]; [lia |]. rewrite K2 in Ht by lia. congruence.
  - destruct S2 as [-> | [t Ht]]; [lia |]. rewrite K1 in Ht by lia. congruence.
Qed.

(** The re-resolution of [register_path_breakpoint] computes the
    specification's resolution. *)
Lemma resolve_in_register_spec (V : line_info) (sb : SourceBreakpoint.t) :
  lines_wf V -> 0 <= SourceBreakpoint.line sb ->
  resolve_in_register V sb = Some (SpecResolution.resolve V (SourceBreakpoint.line sb)).
Proof.
  intros [x0 H0] HL.
  assert (Hlen : 1 <= len V)
    by (pose proof (nth_error_range _ _ _ H0); unfold len; lia).
  unfold resolve_in_register, SpecResolution.resolve.
  set (L := SourceBreakpoint.line sb).
  set (s0 := Z.min L (len V - 1)).
  assert (Hs0 : 0 <= s0 < len V) by (unfold s0; lia).
  rewrite py_get_nonneg by lia.
  destruct (nth_error_in_range V (Z.to_nat s0)) as [e He]; [unfold len in *; lia |].
  rewrite He.
  destruct (scan_back_spec V x0 H0 (back_fuel V) s0 e) as (b & ty & Hsb & Hb & Hbt & Hbk);
    try lia; auto.
  { unfold back_fuel, len in *. lia. }
  rewrite Hsb.
  destruct (scan_fwd_spec V (Z.to_nat (len V - (s0 + 1))) (s0 + 1)) as (r & Hsf & Hr & Hrs & Hrk);
    try lia; auto.
  rewrite Hsf.
  destruct (spec_back V x0 H0 (length V) s0) as (Hb' & Hbt' & Hbk'); try lia;
    try (unfold len in *; lia).
  set (b' := SpecResolution.while_loop (length V) (SpecResolution.is_continuation V)
               (fun s => s - 1) s0) in *.
  assert (Eb : b' = b) by (apply (back_unique V s0); eauto).
  rewrite Eb.
  destruct (spec_fwd V (length V) (b + 1)) as (Hr' & Hrs' & Hrk'); try lia;
    try (unfold len in *; lia).
  set (r' := SpecResolution.while_loop (length V)
               (fun e => (e <? len V) && SpecResolution.is_continuation V e)
               (fun e => e + 1) (b + 1)) in *.
  assert (Er : r' = r).
  { assert (Hge : s0 + 1 <= r').
    { destruct (Z_lt_le_dec r' (s0 + 1)) as [Hlt | Hle]; [| lia].
      exfalso. destruct Hrs' as [Hend | [t Ht]]; [lia |].
      rewrite Hbk in Ht by lia. congruence. }
    apply (fwd_unique V (s0 + 1)); try lia; auto.
    intros k Hk. apply Hrk'. lia. }
  rewrite Er.
  assert (Hent : SpecResolution.entry V b = Some ty)
    by (unfold SpecResolution.entry; rewrite Hbt; reflexivity).
  rewrite Hent.
  destruct (Z.eqb_spec ty 0) as [-> | Hne]; [reflexivity |].
  destruct ty; [lia | reflexivity | reflexivity].
Qed.

(** The handler's copy of the resolution builds its breakpoint from the
    same four values as [register_path_breakpoint]'s copy. *)
Lemma resolve_in_set_breakpoints_register (V : line_info) (sb : SourceBreakpoint.t)
    (bp_id : Z) (source : Source.t) :
  resolve_in_set_breakpoints V sb bp_id source =
  option_map (fun '(verified, bp_msg, start_line, end_line) =>
                Breakpoint.make bp_id verified bp_msg source (Some start_line) (Some end_line))
             (resolve_in_register V sb).
Proof.
  unfold resolve_in_set_breakpoints, resolve_in_register.
  destruct (py_get _ _) as [lt |]; [| reflexivity].
  destruct (scan_back _ _ _ _) as [[s ty] |]; [| reflexivity].
  destruct (scan_fwd _ _ _) as [e |]; [| reflexivity].
  destruct (ty =? 0); reflexivity.
Qed.

(** [register_path_breakpoint] keeps every validity sequence well formed:
    index 0 is created as [0] and only ever overwritten by an integer. *)
Lemma register_path_breakpoint_lines_wf (self self' : AD.t) (path : string)
    (line bp_type : Z) :
  (forall p V, AD.source_info self !! p = Some V -> lines_wf V) ->
  register_path_breakpoint self path line bp_type = Some self' ->
  forall p V, AD.source_info self' !! p = Some V -> lines_wf V.
Proof.
  intros Hwf Hreg p V Hp.
  unfold register_path_breakpoint in Hreg.
  set (fl := default [Some 0] (AD.source_info self !! path)) in *.
  assert (Hfl : lines_wf fl).
  { unfold fl. destruct (AD.source_info self !! path) eqn:E; simpl; eauto.
    exists 0. reflexivity. }
  set (fl2 := (fl ++ repeat None (Z.to_nat (1 + line - len fl)))%list) in *.
  assert (Hfl2 : lines_wf fl2).
  { destruct Hfl as [x Hx]. exists x. unfold fl2.
    rewrite nth_error_app1; [exact Hx |]. apply (nth_error_range _ _ _ Hx). }
  destruct (py_set fl2 line (Some bp_type)) as [fl3 |] eqn:Eset; [| discriminate].
  destruct (reresolve_loop path fl3 (AD.breakpoints self)) as [[bps evs] |];
    [| discriminate].
  injection Hreg as <-. simpl in Hp.
  destruct (decide (path = p)) as [<- | Hne].
  - rewrite lookup_insert_eq in Hp. injection Hp as <-.
    unfold py_set in Eset.
    destruct Hfl2 as [x Hx].
    set (j := if line <? 0 then line + len fl2 else line) in *.
    destruct ((j <? 0) || (len fl2 <=? j)) eqn:Ej; [discriminate |].
    injection Eset as <-.
    apply orb_false_iff in Ej as [Ej1 Ej2].
    apply Z.ltb_ge in Ej1. apply Z.leb_gt in Ej2.
    destruct (Nat.eq_dec (Z.to_nat j) O) as [E0 | N0].
    + exists bp_type. rewrite E0, <- lookup_nth_error.
      rewrite list_lookup_insert_eq; [reflexivity |].
      apply (nth_error_range _ _ _ Hx).
    + exists x. rewrite <- Hx, <- !lookup_nth_error.
      apply list_lookup_insert_ne. lia.
  - rewrite lookup_insert_ne in Hp by congruence. eauto.
Qed.

(** C1: for a non-empty validity sequence [V] (index 0 never a
    continuation, as [register_path_breakpoint] keeps it) and a requested
    line [L >= 0], the [SetBreakpoints] handler and the post-learn
    re-resolution both compute the resolution of the specification's steps
    1-4 ([SpecResolution.resolve]): start walked back over continuations
    from [min(L, len(V)-1)], end walked forward from [start+1] and then
    [min(end-1, len(V))]; unverified with "Breakpoint cannot be set here."
    exactly when [V[start]] is unbreakable, verified with no message
    otherwise, with line [start] and end_line [end]. *)
Theorem resolution_follows_algorithm (V : line_info) (L : Z) :
  lines_wf V -> 0 <= L ->
  (forall (sb : SourceBreakpoint.t) (bp_id : Z) (source : Source.t),
     SourceBreakpoint.line sb = L ->
     resolve_in_set_breakpoints V sb bp_id source =
     Some (let '(verified, msg, start, end_) := SpecResolution.resolve V L in
           Breakpoint.make bp_id verified msg source (Some start) (Some end_)))
  /\ (forall sb : SourceBreakpoint.t, SourceBreakpoint.line sb = L ->
        resolve_in_register V sb = Some (SpecResolution.resolve V L)).
Proof.
  intros Hwf HL. split.
  - intros sb bp_id source <-.
    rewrite resolve_in_set_breakpoints_register, resolve_in_register_spec by auto.
    simpl. destruct (SpecResolution.resolve _ _) as [[[v m] s] e]. reflexivity.
  - intros sb <-. apply resolve_in_register_spec; auto.
Qed.

Lemma resolution_follows_algorithm_witness :
  (lines_wf [Some 0; None; Some 1; None; None; Some 0; Some 1] /\ 0 <= 4) /\
  resolve_in_register [Some 0; None; Some 1; None; None; Some 0; Some 1]
    (SourceBreakpoint.mk 4 None None None None)
  = Some (SpecResolution.resolve [Some 0; None; Some 1; None; None; Some 0; Some 1] 4).
Proof.
  assert (H : lines_wf [Some 0; None; Some 1; None; None; Some 0; Some 1])
    by (exists 0; reflexivity).
  split; [split; [exact H | lia] |].
  apply (proj2 (resolution_follows_algorithm _ 4 H ltac:(lia))). reflexivity.
Defined.

(* ------------------------------------------------------------------ *)
(** ** [get_breakpoint] and the stop decision *)

Lemma find_some_in {A} (f : A -> bool) (l : list A) (x : A) :
  List.find f l = Some x -> f x = true.
Proof.
  induction l as [|y l IH]; simpl; [discriminate |].
  destruct (f y) eqn:E; [intros [= <-]; exact E | exact IH].
Qed.

(** C10: while no client is connected [get_breakpoint] returns [None], so
    no task boundary stops on a line breakpoint; when it returns [b], the
    client is connected, [b]'s path is the queried path, and [b]'s resolved
    range contains the line (a missing line or end_line imposes no bound). *)
Theorem get_breakpoint_connected_in_range (self : AD.t) (path : string) (line : Z) :
  (AD.connected self = false ->
     get_breakpoint self path line = None /\
     forall (thread : AnsibleThread.t) (task : Task.t) (ev : string -> cond_outcome) d,
       stop_decision self thread task path line ev <> Some (BREAKPOINT, d))
  /\ (forall b : ALB.t, get_breakpoint self path line = Some b ->
        AD.connected self = true /\ ALB.path b = path /\
        (forall l, Breakpoint.line (ALB.breakpoint b) = Some l -> l <= line) /\
        (forall e, Breakpoint.end_line (ALB.breakpoint b) = Some e -> line <= e)).
Proof.
  split.
  - intros Hc.
    assert (Hg : get_breakpoint self path line = None)
      by (unfold get_breakpoint; rewrite Hc; reflexivity).
    split; [exact Hg |].
    intros thread task ev d. unfold stop_decision. rewrite Hg.
    destruct (break_step_over _ _); [discriminate |].
    destruct (break_step_out _ _); [discriminate |].
    destruct (break_step_in _); [discriminate |].
    rewrite andb_false_r. discriminate.
  - intros b Hb. unfold get_breakpoint in Hb.
    destruct (AD.connected self); simpl in Hb; [| discriminate].
    destruct (List.find _ _) as [[k b'] |] eqn:Ef; simpl in Hb; [| discriminate].
    injection Hb as ->. apply find_some_in in Ef. simpl in Ef.
    unfold bp_matches in Ef.
    apply andb_true_iff in Ef as [Ef He]. apply andb_true_iff in Ef as [Ep Hl].
    split; [reflexivity |]. split; [apply String.eqb_eq; exact Ep |].
    split.
    + intros l Hl'. rewrite Hl' in Hl. apply Z.leb_le. exact Hl.
    + intros e He'. rewrite He' in He. apply Z.leb_le. exact He.
Qed.


Lemma get_breakpoint_connected_in_range_witness :
  get_breakpoint (AD.mk false [] 1 ∅ []) "/p/site.yml" 3 = None.
Proof.
  exact (proj1 (proj1 (get_breakpoint_connected_in_range (AD.mk false [] 1 ∅ []) "/p/site.yml" 3)
           eq_refl)).
Defined.

(** C9: a breakpoint whose condition raises while being evaluated is
    handled exactly as if the condition had evaluated to false: the stop
    decision is the one for a false condition, it is never a breakpoint
    stop, and the decision is a value (no exception escapes). *)
Theorem condition_failure_is_false (dbg : AD.t) (thread : AnsibleThread.t) (task : Task.t)
    (path : string) (line : Z) (ev : string -> cond_outcome) (b : ALB.t)
    (cond err : string) :
  get_breakpoint dbg path line = Some b ->
  SourceBreakpoint.condition (ALB.source_breakpoint b) = Some cond ->
  cond <> "" ->
  ev cond = CondAnsibleError err ->
  stop_decision dbg thread task path line ev
  = stop_decision dbg thread task path line (fun _ => CondValue false)
  /\ forall d, stop_decision dbg thread task path line ev <> Some (BREAKPOINT, d).
Proof.
  intros Hg Hc Hne Hev.
  assert (Hs : String.eqb cond "" = false) by (apply String.eqb_neq; exact Hne).
  unfold stop_decision. rewrite Hg, Hc, Hs, Hev.
  split; [reflexivity |].
  intros d.
  destruct (break_step_over _ _); [discriminate |].
  destruct (break_step_out _ _); [discriminate |].
  destruct (break_step_in _); [discriminate |].
  rewrite andb_false_r. discriminate.
Qed.

Lemma condition_failure_is_false_witness :
  stop_decision (conditional_debugger "x is defined") no_stepping_thread (play_task "t1")
    main_path 5 (fun _ => CondAnsibleError "'x' is undefined")
  = stop_decision (conditional_debugger "x is defined") no_stepping_thread (play_task "t1")
      main_path 5 (fun _ => CondValue false).
Proof.
  exact (proj1 (condition_failure_is_false (conditional_debugger "x is defined")
                  no_stepping_thread (play_task "t1") main_path 5
                  (fun _ => CondAnsibleError "'x' is undefined")
                  (snd (hd (0, ALB.mk 0 main_source (sb_at 0)
                              (Breakpoint.make 0 false None main_source None None))
                           (AD.breakpoints (conditional_debugger "x is defined"))))
                  "x is defined" "'x' is undefined"
                  eq_refl eq_refl ltac:(discriminate) eq_refl)).
Defined.

(** C3 (counterexample): a breakpoint set on a path Ansible has not loaded
    yet is unverified, and still fires: a task at a later line of that path
    stops the thread with reason "breakpoint". *)
Lemma unverified_breakpoint_fires :
  match process_set_breakpoints fresh_debugger (set_request 1 [5]) with
  | Some st =>
      match get_breakpoint st main_path 7 with
      | Some b => Breakpoint.verified (ALB.breakpoint b) = false
      | None => False
      end
      /\ stop_decision st no_stepping_thread (play_task "t1") main_path 7
           (fun _ => CondValue true) = Some (BREAKPOINT, "Breakpoint hit")
  | None => False
  end.
Proof. vm_compute. split; reflexivity. Qed.

(** C3 (amended): at a task boundary the thread stops with reason
    "breakpoint" exactly when no step predicate fires, the thread is not
    stepping out, [get_breakpoint] returns some [b], and [b]'s condition is
    absent, empty or evaluates true. [b]'s verified flag is not consulted. *)
Theorem breakpoint_stop_iff (dbg : AD.t) (thread : AnsibleThread.t) (task : Task.t)
    (path : string) (line : Z) (ev : string -> cond_outcome) (d : string) :
  stop_decision dbg thread task path line ev = Some (BREAKPOINT, d)
  <-> d = "Breakpoint hit"
      /\ break_step_over thread task = false
      /\ break_step_out thread task = false
      /\ break_step_in thread = false
      /\ AnsibleThread.stepping_type thread <> Some StepOut
      /\ exists b, get_breakpoint dbg path line = Some b
             /\ match SourceBreakpoint.condition (ALB.source_breakpoint b) with
                | None => True
                | Some c => c = "" \/ ev c = CondValue true
                end.
Proof.
  unfold stop_decision.
  destruct (break_step_over thread task) eqn:Eo.
  { split; [discriminate | intros (_ & H & _); discriminate]. }
  destruct (break_step_out thread task) eqn:Eu.
  { split; [discriminate | intros (_ & _ & H & _); discriminate]. }
  destruct (break_step_in thread) eqn:Ei.
  { split; [discriminate | intros (_ & _ & _ & H & _); discriminate]. }
  assert (Hso : negb (match AnsibleThread.stepping_type thread with
                      | Some StepOut => true | _ => false end) = true
                <-> AnsibleThread.stepping_type thread <> Some StepOut).
  { destruct (AnsibleThread.stepping_type thread) as [[]|]; simpl;
      split; congruence || tauto. }
  destruct (get_breakpoint dbg path line) as [b|] eqn:Eg.
  - destruct (SourceBreakpoint.condition (ALB.source_breakpoint b)) as [c|] eqn:Ec.
    + destruct (String.eqb_spec c "") as [Hc | Hc].
      * split.
        -- destruct (negb _) eqn:En; simpl; [| discriminate].
           intros [= <-]. repeat split; try reflexivity.
           ++ apply Hso; reflexivity.
           ++ exists b. rewrite Ec. split; [reflexivity | left; exact Hc].
        -- intros (-> & _ & _ & _ & Hs & _). apply Hso in Hs. rewrite Hs. reflexivity.
      * destruct (ev c) as [[|] | m] eqn:Ev.
        -- split.
           ++ destruct (negb _) eqn:En; simpl; [| discriminate].
              intros [= <-]. repeat split; try reflexivity.
              ** apply Hso; reflexivity.
              ** exists b. rewrite Ec. split; [reflexivity | right; exact Ev].
           ++ intros (-> & _ & _ & _ & Hs & _). apply Hso in Hs. rewrite Hs. reflexivity.
        -- rewrite andb_false_r. split; [discriminate |].
           intros (_ & _ & _ & _ & _ & b' & Hb' & Hc'). injection Hb' as <-.
           rewrite Ec in Hc'. destruct Hc' as [Hc' | Hc']; [contradiction | congruence].
        -- rewrite andb_false_r. split; [discriminate |].
           intros (_ & _ & _ & _ & _ & b' & Hb' & Hc'). injection Hb' as <-.
           rewrite Ec in Hc'. destruct Hc' as [Hc' | Hc']; [contradiction | congruence].
    + split.
      * destruct (negb _) eqn:En; simpl; [| discriminate].
        intros [= <-]. repeat split; try reflexivity.
        -- apply Hso; reflexivity.
        -- exists b. rewrite Ec. split; [reflexivity | exact I].
      * intros (-> & _ & _ & _ & Hs & _). apply Hso in Hs. rewrite Hs. reflexivity.
  - rewrite andb_false_r. split; [discriminate |].
    intros (_ & _ & _ & _ & _ & b' & Hb' & _). discriminate.
Qed.

(* ------------------------------------------------------------------ *)
(** ** The [SetBreakpointsRequest] handler *)

Lemma seqZ_len_cons {A} (c : Z) (x : A) (l : list A) :
  seqZ c (len (x :: l)) = c :: seqZ (c + 1) (len l).
Proof.
  unfold len. simpl length. rewrite seqZ_cons by lia.
  f_equal. f_equal; lia.
Qed.

Lemma len_cons {A} (x : A) (l : list A) : len (x :: l) = len l + 1.
Proof. unfold len. simpl length. lia. Qed.

(** The breakpoint the handler answers for a path without line
    information. *)
Definition not_loaded_breakpoint (source : Source.t) (i_sb : Z * SourceBreakpoint.t)
    : Breakpoint.t :=
  Breakpoint.make (fst i_sb) false (Some not_loaded_message) source
    (Some (SourceBreakpoint.line (snd i_sb))) None.

Lemma set_breakpoints_loop_not_loaded (msg : SetBreakpointsRequest.t)
    (si : option line_info) (sbs : list SourceBreakpoint.t) (counter : Z)
    (bps : list (Z * ALB.t)) (info : list Breakpoint.t) :
  SetBreakpointsRequest.source_modified msg = false ->
  (si = None \/ si = Some []) ->
  exists bps',
    set_breakpoints_loop msg si sbs counter bps info
    = Some (counter + len sbs, bps',
            (info ++ map (not_loaded_breakpoint (SetBreakpointsRequest.source msg))
                        (combine (seqZ counter (len sbs)) sbs))%list).
Proof.
  intros Hm Hsi. revert counter bps info.
  induction sbs as [| sb rest IH]; intros counter bps info.
  - exists bps. simpl. rewrite app_nil_r. f_equal. f_equal. f_equal. unfold len; simpl; lia.
  - simpl set_breakpoints_loop. rewrite Hm.
    destruct Hsi as [-> | ->]; simpl;
    destruct (IH (counter + 1) (dict_set bps counter
              (ALB.mk counter (SetBreakpointsRequest.source msg) sb
                 (Breakpoint.make counter false (Some not_loaded_message)
                    (SetBreakpointsRequest.source msg) (Some (SourceBreakpoint.line sb)) None)))
              (info ++ [Breakpoint.make counter false (Some not_loaded_message)
                    (SetBreakpointsRequest.source msg) (Some (SourceBreakpoint.line sb)) None]))
      as [bps' Hl];
    exists bps'; unfold not_loaded_message in Hl; rewrite Hl;
    rewrite seqZ_len_cons, len_cons; simpl;
    rewrite <- app_assoc;
    replace (counter + 1 + len rest) with (counter + (len rest + 1)) by lia; reflexivity.
Qed.

(** C5 (counterexample): for a path without line information the handler's
    message is "File has not been loaded by Ansible, cannot detect
    breakpoints yet." and the breakpoint carries the requested line. *)
Lemma not_loaded_message_and_line :
  match process_set_breakpoints fresh_debugger (set_request 1 [10]) with
  | Some st =>
      AD.send_queue st
      = [SetBreakpointsResponse 1
           [Breakpoint.make 1 false
              (Some "File has not been loaded by Ansible, cannot detect breakpoints yet.")
              main_source (Some 10) None]]
  | None => False
  end.
Proof. vm_compute. reflexivity. Qed.

(** C5 (amended): a [SetBreakpointsRequest] (not flagged as a modified
    source) for a path without line information is answered, breakpoint by
    breakpoint in request order, with an unverified breakpoint with message
    "File has not been loaded by Ansible, cannot detect breakpoints yet.",
    the fresh id, [line] = the requested line and no [end_line]. *)
Theorem not_loaded_breakpoints_unverified (self : AD.t) (msg : SetBreakpointsRequest.t) :
  AD.source_info self !! or_empty (Source.path (SetBreakpointsRequest.source msg)) = None ->
  SetBreakpointsRequest.source_modified msg = false ->
  exists self',
    process_set_breakpoints self msg = Some self'
    /\ AD.send_queue self'
       = AD.send_queue self
         ++ [SetBreakpointsResponse (SetBreakpointsRequest.seq msg)
               (map (fun '(i, sb) =>
                       Breakpoint.make i false
                         (Some "File has not been loaded by Ansible, cannot detect breakpoints yet.")
                         (SetBreakpointsRequest.source msg) (Some (SourceBreakpoint.line sb)) None)
                    (combine (seqZ (AD.breakpoint_counter self)
                                   (len (SetBreakpointsRequest.breakpoints msg)))
                             (SetBreakpointsRequest.breakpoints msg)))]%list.
Proof.
  intros Hsi Hm. unfold process_set_breakpoints. rewrite Hsi.
  destruct (set_breakpoints_loop_not_loaded msg None (SetBreakpointsRequest.breakpoints msg)
              (AD.breakpoint_counter self)
              (List.filter (fun '(_, b) => negb (String.eqb (ALB.path b)
                   (or_empty (Source.path (SetBreakpointsRequest.source msg)))))
                 (AD.breakpoints self)) [] Hm (or_introl eq_refl)) as [bps' Hl].
  rewrite Hl. eexists. split; [reflexivity |]. simpl. f_equal. f_equal. f_equal.
  apply map_ext. intros [i sb]. reflexivity.
Qed.

Lemma not_loaded_breakpoints_unverified_witness :
  exists self',
    process_set_breakpoints fresh_debugger (set_request 1 [10; 12]) = Some self'
    /\ AD.send_queue self'
       = [SetBreakpointsResponse 1
            (map (fun '(i, sb) =>
                    Breakpoint.make i false
                      (Some "File has not been loaded by Ansible, cannot detect breakpoints yet.")
                      main_source (Some (SourceBreakpoint.line sb)) None)
                 (combine (seqZ 1 2) [sb_at 10; sb_at 12]))].
Proof.
  exact (not_loaded_breakpoints_unverified fresh_debugger (set_request 1 [10; 12])
           eq_refl eq_refl).
Defined.

(* ------------------------------------------------------------------ *)
(** ** [Breakpoint.pack] / [Breakpoint.unpack] *)

(** C7: [Breakpoint()] with every field at its default (so [source] is
    [None]) does not survive [unpack(pack(x))]: [pack] emits the key
    ["source"] with value [None], and [unpack] then calls
    [Source.unpack(None)], which raises. A breakpoint that has a source
    does round-trip. *)
Theorem breakpoint_roundtrip_without_source_fails :
  breakpoint_unpack (breakpoint_pack
    (Breakpoint.mk None false None None None None None None None None)) = None
  /\ breakpoint_unpack (breakpoint_pack
       (Breakpoint.make 1 true None main_source (Some 5) (Some 5)))
     = Some (Breakpoint.make 1 true None main_source (Some 5) (Some 5)).
Proof. split; vm_compute; reflexivity. Qed.

(* ------------------------------------------------------------------ *)
(** ** Cancellable socket operations *)

(** C8: [sendall] tests [self._cancel_funcs] where its siblings test
    [self._cancelled]. On a fresh token a peer [OSError] is reported as
    [CancelledError] (its own registration is still in [_cancel_funcs]);
    when the token is cancelled while [sendall] is in flight (which clears
    [_cancel_funcs]) the resulting [OSError] escapes as a generic I/O error.
    [accept] behaves as intended on both inputs. *)
Theorem sendall_inverts_cancellation :
  fst (run_guarded SendAll (SCT.mk [] 0 false) false SockOSError) = RaisedCancelledError
  /\ fst (run_guarded SendAll (SCT.mk [] 0 false) true SockOSError) = RaisedOSError
  /\ fst (run_guarded Accept (SCT.mk [] 0 false) false SockOSError) = RaisedOSError
  /\ fst (run_guarded Accept (SCT.mk [] 0 false) true SockOSError) = RaisedCancelledError.
Proof. repeat split. Qed.

(* ------------------------------------------------------------------ *)
(** ** Session end *)

(** C2: when the session token is cancelled (in either mode) the strategy
    registered at that time receives one [ended()] call, which empties
    [_waiting_threads]; a thread stopped at a task boundary waits for
    [tid in self._waiting_threads], so after [notify_all] it re-checks a
    false predicate and stays blocked. In listen mode an EOF from the client
    calls no [ended()] at all: the task waits for the next client. *)
Theorem session_end_leaves_waiters_blocked (mode : socket_mode) (st : DebugState.t) (tid : Z) :
  recv_task mode [SessionCancelled] (Some st) = (true, Some (ended st))
  /\ DebugState.ended_calls (ended st) = S (DebugState.ended_calls st)
  /\ wait_released (ended st) tid = false
  /\ recv_task Listen [PeerClosed] (Some st) = (false, Some st).
Proof. destruct mode; repeat split. Qed.

(* ------------------------------------------------------------------ *)
(** ** Replacing the breakpoints of a path *)

Lemma dict_set_fresh {V} (d : list (Z * V)) (k : Z) (v : V) :
  Forall (fun kb => fst kb < k) d -> dict_set d k v = d ++ [(k, v)].
Proof.
  induction d as [| [k' v'] d IH]; intros H; [reflexivity |].
  inversion H as [| ? ? Hk Hd]; subst. simpl in Hk. simpl.
  destruct (Z.eqb_spec k' k); [lia |]. rewrite IH by exact Hd. reflexivity.
Qed.

Lemma resolve_in_set_breakpoints_id (lines : line_info) (sb : SourceBreakpoint.t)
    (bp_id : Z) (source : Source.t) (bp : Breakpoint.t) :
  resolve_in_set_breakpoints lines sb bp_id source = Some bp ->
  Breakpoint.id bp = Some bp_id /\ Breakpoint.source bp = Some source.
Proof.
  unfold resolve_in_set_breakpoints.
  destruct (py_get _ _) as [lt|]; [| discriminate].
  destruct (scan_back _ _ _ _) as [[s t]|]; [| discriminate].
  destruct (scan_fwd _ _ _) as [e|]; [| discriminate].
  destruct (t =? 0); intros [= <-]; split; reflexivity.
Qed.

Lemma Forall_weaken_lt (l : list (Z * ALB.t)) (a b : Z) :
  a <= b -> Forall (fun kb => fst kb < a) l -> Forall (fun kb => fst kb < b) l.
Proof. intros Hab H. eapply Forall_impl; [exact H |]. intros x Hx. simpl in *. lia. Qed.

(** The loop of the handler: it consumes one id per requested breakpoint,
    answers one breakpoint per request carrying that id, and appends the
    breakpoints it stores, under those ids, after the ones it was given. *)
Lemma set_breakpoints_loop_shape (msg : SetBreakpointsRequest.t) (si : option line_info)
    (sbs : list SourceBreakpoint.t) (counter : Z) (bps : list (Z * ALB.t))
    (info : list Breakpoint.t) (c' : Z) (bps' : list (Z * ALB.t))
    (info' : list Breakpoint.t) :
  Forall (fun kb => fst kb < counter) bps ->
  set_breakpoints_loop msg si sbs counter bps info = Some (c', bps', info') ->
  c' = counter + len sbs
  /\ (exists stored,
        bps' = bps ++ stored
        /\ map (fun kb => (fst kb, ALB.source_breakpoint (snd kb))) stored
           = (if SetBreakpointsRequest.source_modified msg then []
              else combine (seqZ counter (len sbs)) sbs)
        /\ Forall (fun kb => ALB.id (snd kb) = fst kb
                             /\ ALB.source (snd kb) = SetBreakpointsRequest.source msg
                             /\ counter <= fst kb < counter + len sbs) stored)
  /\ (exists new, info' = info ++ new
        /\ map Breakpoint.id new = map Some (seqZ counter (len sbs))).
Proof.
  revert counter bps info.
  induction sbs as [| sb rest IH]; intros counter bps info Hb Hl.
  - simpl in Hl. injection Hl as <- <- <-.
    assert (H0 : len (@nil SourceBreakpoint.t) = 0) by reflexivity.
    rewrite H0, seqZ_nil by lia.
    split; [lia |]. split.
    + exists []. rewrite app_nil_r. split; [reflexivity |].
      split; [destruct (SetBreakpointsRequest.source_modified msg); reflexivity | constructor].
    + exists []. rewrite app_nil_r. split; reflexivity.
  - assert (Hlen : 0 <= len rest) by (unfold len; lia).
    rewrite seqZ_len_cons, len_cons. simpl in Hl.
    destruct (SetBreakpointsRequest.source_modified msg) eqn:Hm.
    + apply IH in Hl as (Hc & (stored & Hs & Hmap & Hf) & (new & Hi & Hid));
        [| eapply Forall_weaken_lt; [| exact Hb]; lia].
      split; [lia |]. split.
      * exists stored. split; [exact Hs |]. split; [exact Hmap |].
        eapply Forall_impl; [exact Hf |]. intros x (Hx1 & Hx2 & Hx3). repeat split; auto; lia.
      * eexists. split; [rewrite Hi, <- app_assoc; reflexivity |].
        simpl. rewrite Hid. reflexivity.
    + set (obp := match si with
                  | Some [] | None => _
                  | Some _ => _ end) in Hl.
      destruct obp as [bp|] eqn:Hobp; [| discriminate].
      assert (Hid0 : Breakpoint.id bp = Some counter).
      { subst obp. destruct si as [[| x l]|];
          [injection Hobp as <-; reflexivity
          | apply resolve_in_set_breakpoints_id in Hobp; apply Hobp
          | injection Hobp as <-; reflexivity]. }
      rewrite dict_set_fresh in Hl by exact Hb.
      apply IH in Hl as (Hc & (stored & Hs & Hmap & Hf) & (new & Hi & Hid)).
      2:{ apply Forall_app. split; [eapply Forall_weaken_lt; [| exact Hb]; lia |].
          repeat constructor. simpl. lia. }
      split; [lia |]. split.
      * eexists. split; [rewrite Hs, <- app_assoc; reflexivity |].
        split; [simpl; rewrite Hmap; reflexivity |].
        simpl. constructor; [simpl; repeat split; lia |].
        eapply Forall_impl; [exact Hf |]. intros x (Hx1 & Hx2 & Hx3). repeat split; auto; lia.
      * eexists. split; [rewrite Hi, <- app_assoc; reflexivity |].
        simpl. rewrite Hid0, Hid. reflexivity.
Qed.

Lemma Forall_list_filter {A} (P : A -> Prop) (f : A -> bool) (l : list A) :
  Forall P l -> Forall P (List.filter f l).
Proof.
  induction 1 as [| x l Hx _ IH]; simpl; [constructor |].
  destruct (f x); [constructor |]; assumption.
Qed.

Lemma filter_idem {A} (f : A -> bool) (l : list A) :
  List.filter f (List.filter f l) = List.filter f l.
Proof.
  induction l as [| x l IH]; simpl; [reflexivity |].
  destruct (f x) eqn:E; simpl; [rewrite E, IH | exact IH]; reflexivity.
Qed.

Lemma filter_none {A} (f g : A -> bool) (l : list A) :
  (forall x, f x = true -> g x = false) -> List.filter g (List.filter f l) = [].
Proof.
  intros H. induction l as [| x l IH]; simpl; [reflexivity |].
  destruct (f x) eqn:E; simpl; [rewrite (H x E) | ]; exact IH.
Qed.

Lemma filter_all {A} (f : A -> bool) (l : list A) :
  Forall (fun x => f x = true) l -> List.filter f l = l.
Proof.
  induction 1 as [| x l Hx _ IH]; simpl; [reflexivity |]. rewrite Hx, IH. reflexivity.
Qed.

(** C6: a [SetBreakpointsRequest] for the path [P] keeps exactly the
    breakpoints registered against other paths, in order; the breakpoints
    registered against [P] afterwards are exactly the requested ones (none
    when the source is flagged as modified), under the fresh ids
    [counter, counter + 1, ...], which are above every id in use; the
    response carries those ids in request order, the counter advances past
    them, and the line information is untouched. *)
Theorem set_breakpoints_replaces_path (self self' : AD.t) (msg : SetBreakpointsRequest.t) :
  ids_below self ->
  process_set_breakpoints self msg = Some self' ->
  let P := or_empty (Source.path (SetBreakpointsRequest.source msg)) in
  let sbs := SetBreakpointsRequest.breakpoints msg in
  let c := AD.breakpoint_counter self in
  List.filter (fun kb => negb (on_path P kb)) (AD.breakpoints self')
    = List.filter (fun kb => negb (on_path P kb)) (AD.breakpoints self)
  /\ map (fun kb => (fst kb, ALB.source_breakpoint (snd kb)))
         (List.filter (on_path P) (AD.breakpoints self'))
     = (if SetBreakpointsRequest.source_modified msg then []
        else combine (seqZ c (len sbs)) sbs)
  /\ Forall (fun kb => ALB.id (snd kb) = fst kb /\ c <= fst kb)
       (List.filter (on_path P) (AD.breakpoints self'))
  /\ Forall (fun kb => fst kb < c) (AD.breakpoints self)
  /\ AD.breakpoint_counter self' = c + len sbs
  /\ (exists info,
        AD.send_queue self'
        = AD.send_queue self ++ [SetBreakpointsResponse (SetBreakpointsRequest.seq msg) info]
        /\ map Breakpoint.id info = map Some (seqZ c (len sbs)))
  /\ AD.source_info self' = AD.source_info self
  /\ ids_below self'.
Proof.
  intros Hb Hp P sbs c.
  unfold process_set_breakpoints in Hp. fold P in Hp.
  set (keep := fun '((_, b) : Z * ALB.t) => negb (String.eqb (ALB.path b) P)) in Hp.
  assert (Hkeep : forall kb, keep kb = negb (on_path P kb)) by (intros [k b]; reflexivity).
  destruct (set_breakpoints_loop _ _ _ _ _ _) as [[[c' bps'] info']|] eqn:Hl;
    [| discriminate].
  injection Hp as <-. simpl.
  assert (Hbf : Forall (fun kb => fst kb < c) (List.filter keep (AD.breakpoints self))).
  { apply Forall_list_filter. exact Hb. }
  apply set_breakpoints_loop_shape in Hl as (Hc & (stored & Hs & Hmap & Hf) & (new & Hi & Hid));
    [| exact Hbf].
  fold sbs c in Hc, Hmap, Hf, Hid.
  assert (HsP : Forall (fun kb => on_path P kb = true) stored).
  { eapply Forall_impl; [exact Hf |]. intros [k b] (_ & Hsrc & _).
    simpl in Hsrc. unfold on_path, ALB.path. simpl. rewrite Hsrc. apply String.eqb_refl. }
  assert (Hfk : List.filter keep (AD.breakpoints self)
                = List.filter (fun kb => negb (on_path P kb)) (AD.breakpoints self))
    by (apply filter_ext; exact Hkeep).
  rewrite Hfk in Hs, Hbf.
  subst bps'. rewrite !List.filter_app.
  rewrite filter_idem.
  rewrite filter_none with (f := fun kb => negb (on_path P kb))
    by (intros x Hx; destruct (on_path P x); [discriminate | reflexivity]).
  assert (Hst0 : List.filter (fun kb => negb (on_path P kb)) stored = []).
  { clear -HsP. induction HsP as [| x l Hx _ IH]; simpl; [reflexivity |].
    rewrite Hx. exact IH. }
  rewrite Hst0, app_nil_r, (filter_all (on_path P) stored HsP).
  rewrite app_nil_l in Hi |- *. subst info'.
  assert (Hlen : 0 <= len sbs) by (unfold len; lia).
  split; [reflexivity |]. split; [exact Hmap |]. split.
  { eapply Forall_impl; [exact Hf |]. intros x (H1 & _ & H3 & _). split; [exact H1 | exact H3]. }
  split; [exact Hb |]. split; [exact Hc |]. split.
  { exists new. split; [reflexivity | exact Hid]. }
  split; [reflexivity |].
  unfold ids_below. simpl. rewrite Hc. apply Forall_app. split.
  - eapply Forall_weaken_lt; [| exact Hbf]. lia.
  - eapply Forall_impl; [exact Hf |]. intros x (_ & _ & _ & H4). exact H4.
Qed.

Lemma set_breakpoints_replaces_path_witness :
  ids_below scenario_b_first
  /\ exists s2,
       process_set_breakpoints scenario_b_first (set_request 2 [7]) = Some s2
       /\ AD.breakpoint_counter s2
          = AD.breakpoint_counter scenario_b_first
            + len (SetBreakpointsRequest.breakpoints (set_request 2 [7])).
Proof.
  assert (Hi : ids_below scenario_b_first)
    by (unfold ids_below; vm_compute; repeat constructor).
  split; [exact Hi |].
  destruct (process_set_breakpoints scenario_b_first (set_request 2 [7])) as [s2|] eqn:E.
  - exists s2. split; [reflexivity |].
    pose proof (set_breakpoints_replaces_path scenario_b_first s2 (set_request 2 [7]) Hi E)
      as H.
    cbv zeta in H. destruct H as (_ & _ & _ & _ & Hc & _). exact Hc.
  - vm_compute in E. discriminate.
Defined.

(* ------------------------------------------------------------------ *)
(** ** Re-resolution after [register_path_breakpoint] *)

Lemma changed_test (old : Breakpoint.t) (verified : bool) (s e : Z) :
  bool_decide (Breakpoint.verified old <> verified)
  || bool_decide (Breakpoint.line old <> Some s)
  || bool_decide (Breakpoint.end_line old <> Some e)
  = negb (bool_decide (triple old = (verified, Some s, Some e))).
Proof.
  unfold triple.
  repeat case_bool_decide; simpl; try reflexivity; try congruence.
  all: exfalso; repeat match goal with H : _ = _ |- _ => injection H as ?H ?H ?H end;
       tauto.
Qed.

Lemma reresolve_loop_spec (path : string) (V : line_info) (bps bps' : list (Z * ALB.t))
    (evs : list ProtocolMessage) :
  reresolve_loop path V bps = Some (bps', evs) ->
  Forall2 (reresolved path V) bps bps' /\ evs = changed_events path bps bps'.
Proof.
  revert bps' evs.
  induction bps as [| [k b] rest IH]; intros bps' evs H.
  - simpl in H. injection H as <- <-. split; [constructor | reflexivity].
  - simpl in H.
    destruct (String.eqb (ALB.path b) path) eqn:Ep; simpl in H.
    + destruct (resolve_in_register V (ALB.source_breakpoint b))
        as [[[[verified msg] s] e]|] eqn:Er; [| discriminate].
      rewrite changed_test in H.
      destruct (bool_decide (triple (ALB.breakpoint b) = (verified, Some s, Some e))) eqn:Eq;
        simpl in H;
        (destruct (reresolve_loop path V rest) as [[rest' evs']|] eqn:Eloop in H; [| discriminate]);
        injection H as <- <-; apply IH in Eloop as [Hf He];
        (split; [constructor; [| exact Hf] |]).
      * split; [reflexivity |]. simpl. rewrite Ep.
        exists verified, msg, s, e. split; [exact Er |]. rewrite Eq. reflexivity.
      * unfold changed_events. simpl. rewrite Ep.
        rewrite bool_decide_eq_false_2 by tauto. simpl. rewrite He. reflexivity.
      * split; [reflexivity |]. simpl. rewrite Ep.
        exists verified, msg, s, e. split; [exact Er |]. rewrite Eq. reflexivity.
      * unfold changed_events. simpl. rewrite Ep.
        apply bool_decide_eq_false_1 in Eq.
        rewrite bool_decide_eq_true_2 by (unfold triple at 2; simpl; exact Eq).
        simpl. rewrite He. reflexivity.
    + destruct (reresolve_loop path V rest) as [[rest' evs']|] eqn:Eloop in H; [| discriminate].
      injection H as <- <-. apply IH in Eloop as [Hf He].
      split; [constructor; [| exact Hf] |].
      * split; [reflexivity |]. simpl. rewrite Ep. reflexivity.
      * unfold changed_events. simpl. rewrite Ep. simpl. rewrite He. reflexivity.
Qed.

(** [register_path_breakpoint] stores the updated sequence [V] for [path],
    re-resolves every breakpoint against it and queues the "changed"
    events in breakpoint order. *)
Lemma register_path_breakpoint_spec (self self' : AD.t) (path : string) (line bp_type : Z) :
  register_path_breakpoint self path line bp_type = Some self' ->
  exists V,
    (let old := default [Some 0] (AD.source_info self !! path) in
     py_set (old ++ repeat None (Z.to_nat (1 + line - len old))) line (Some bp_type) = Some V)
    /\ AD.source_info self' = <[path := V]> (AD.source_info self)
    /\ Forall2 (reresolved path V) (AD.breakpoints self) (AD.breakpoints self')
    /\ AD.send_queue self'
       = AD.send_queue self ++ changed_events path (AD.breakpoints self) (AD.breakpoints self')
    /\ AD.connected self' = AD.connected self
    /\ AD.breakpoint_counter self' = AD.breakpoint_counter self.
Proof.
  unfold register_path_breakpoint.
  destruct (py_set _ line (Some bp_type)) as [V|] eqn:Hs; [| discriminate].
  destruct (reresolve_loop path V (AD.breakpoints self)) as [[bps evs]|] eqn:Hl;
    [| discriminate].
  intros [= <-]. apply reresolve_loop_spec in Hl as [Hf He].
  exists V. simpl. subst evs. repeat split; assumption.
Qed.

Lemma reresolve_loop_other_paths (path : string) (V : line_info) (l1 l2 : list (Z * ALB.t)) :
  Forall (fun kb => on_path path kb = false) l1 ->
  reresolve_loop path V (l1 ++ l2)
  = option_map (fun '(r, evs) => (l1 ++ r, evs)) (reresolve_loop path V l2).
Proof.
  induction 1 as [| [k b] l1 Hkb _ IH]; simpl.
  - destruct (reresolve_loop path V l2) as [[r evs]|]; reflexivity.
  - unfold on_path in Hkb. simpl in Hkb. rewrite Hkb. simpl. rewrite IH.
    destruct (reresolve_loop path V l2) as [[r evs]|]; reflexivity.
Qed.

(** Scenario A of the specification, for any debugger, source and
    breakpoint at line 10: without line information the breakpoint is
    stored unverified; learning line 10 as breakpointable then queues one
    "changed" event, with [verified = true], [line = 10] and
    [end_line = 10]. *)
Lemma scenario_a (self : AD.t) (seq : Z) (src : Source.t) (sb : SourceBreakpoint.t) :
  ids_below self ->
  AD.source_info self !! or_empty (Source.path src) = None ->
  SourceBreakpoint.line sb = 10 ->
  exists s1 s2,
    process_set_breakpoints self (SetBreakpointsRequest.mk seq src [sb] false) = Some s1
    /\ register_path_breakpoint s1 (or_empty (Source.path src)) 10 1 = Some s2
    /\ AD.send_queue s2
       = AD.send_queue s1
         ++ [BreakpointEvent "changed"
               (Breakpoint.make (AD.breakpoint_counter self) true None src (Some 10) (Some 10))].
Proof.
  intros Hb Hsi Hl.
  set (P := or_empty (Source.path src)) in *.
  set (c := AD.breakpoint_counter self).
  set (keep := fun '((_, b) : Z * ALB.t) => negb (String.eqb (ALB.path b) P)).
  set (kept := List.filter keep (AD.breakpoints self)).
  set (alb := ALB.mk c src sb
                (Breakpoint.make c false (Some not_loaded_message) src (Some 10) None)).
  assert (Hkept : Forall (fun kb => fst kb < c) kept)
    by (apply Forall_list_filter; exact Hb).
  assert (Hoff : Forall (fun kb => on_path P kb = false) kept).
  { unfold kept. clear. induction (AD.breakpoints self) as [| [k b] l IH]; simpl;
      [constructor |].
    destruct (String.eqb (ALB.path b) P) eqn:E; simpl; [exact IH |].
    constructor; [exact E | exact IH]. }
  assert (Hp : process_set_breakpoints self (SetBreakpointsRequest.mk seq src [sb] false)
               = Some (AD.mk (AD.connected self) (kept ++ [(c, alb)]) (c + 1)
                         (AD.source_info self)
                         (AD.send_queue self ++
                            [SetBreakpointsResponse seq
                               [Breakpoint.make c false (Some not_loaded_message) src
                                  (Some 10) None]]))).
  { unfold process_set_breakpoints. simpl. fold P. rewrite Hsi. fold keep kept c.
    rewrite Hl. rewrite dict_set_fresh by exact Hkept. reflexivity. }
  eexists. eexists. split; [exact Hp |].
  unfold register_path_breakpoint. simpl. rewrite Hsi. simpl.
  rewrite reresolve_loop_other_paths by exact Hoff.
  assert (HP : String.eqb (ALB.path alb) P = true)
    by (unfold ALB.path; simpl; apply String.eqb_refl).
  simpl. rewrite HP.
  unfold resolve_in_register at 1. rewrite Hl. simpl.
  split; [reflexivity |]. simpl. reflexivity.
Qed.

(** C4: after [learn(path, line, bp_type)] (that is
    [register_path_breakpoint]) the line information of [path] is the
    updated sequence [V]; every breakpoint registered against [path] is
    re-resolved against [V] and the others are untouched; a "changed" event
    carrying the new breakpoint is queued, in breakpoint order, exactly for
    the breakpoints of [path] whose (verified, line, end_line) triple
    differs from before. In particular a breakpoint set at line 10 of a path
    without line information gets, once line 10 is learned as
    breakpointable, one "changed" event with [verified = true],
    [line = 10] and [end_line = 10]. *)
Theorem learn_reresolves_path_breakpoints :
  (forall (self self' : AD.t) (path : string) (line bp_type : Z),
     register_path_breakpoint self path line bp_type = Some self' ->
     exists V,
       AD.source_info self' !! path = Some V
       /\ Forall2 (reresolved path V) (AD.breakpoints self) (AD.breakpoints self')
       /\ AD.send_queue self'
          = AD.send_queue self
            ++ changed_events path (AD.breakpoints self) (AD.breakpoints self'))
  /\ (forall (self : AD.t) (seq : Z) (src : Source.t) (sb : SourceBreakpoint.t),
        ids_below self ->
        AD.source_info self !! or_empty (Source.path src) = None ->
        SourceBreakpoint.line sb = 10 ->
        exists s1 s2,
          process_set_breakpoints self (SetBreakpointsRequest.mk seq src [sb] false) = Some s1
          /\ register_path_breakpoint s1 (or_empty (Source.path src)) 10 1 = Some s2
          /\ AD.send_queue s2
             = AD.send_queue s1
               ++ [BreakpointEvent "changed"
                     (Breakpoint.make (AD.breakpoint_counter self) true None src
                        (Some 10) (Some 10))]).
Proof.
  split.
  - intros self self' path line bp_type H.
    apply register_path_breakpoint_spec in H as (V & _ & Hsi & Hf & Hq & _).
    exists V. split; [rewrite Hsi; apply lookup_insert_eq | split; assumption].
  - exact scenario_a.
Qed.

Lemma learn_reresolves_path_breakpoints_witness :
  exists s1 s2,
    process_set_breakpoints fresh_debugger (SetBreakpointsRequest.mk 1 main_source [sb_at 10] false)
      = Some s1
    /\ register_path_breakpoint s1 main_path 10 1 = Some s2
    /\ AD.send_queue s2
       = AD.send_queue s1
         ++ [BreakpointEvent "changed"
               (Breakpoint.make 1 true None main_source (Some 10) (Some 10))].
Proof.
  exact (proj2 learn_reresolves_path_breakpoints fresh_debugger 1 main_source (sb_at 10)
           (List.Forall_nil _) eq_refl eq_refl).
Defined.

(* ------------------------------------------------------------------ *)
(** ** Round trips of [pack] / [unpack] *)

(** Induction over [Source.t] through its nested [sources] list. *)
Lemma Source_nested_ind (P : Source.t -> Prop) :
  (forall name path sref hint origin sources adapter_data checksums,
     Forall P sources ->
     P (Source.mk name path sref hint origin sources adapter_data checksums)) ->
  forall s, P s.
Proof.
  intros H. exact (fix F (s : Source.t) : P s :=
    match s with
    | Source.mk n p r h o srcs a c =>
        H n p r h o srcs a c
          ((fix G (l : list Source.t) : Forall P l :=
              match l with
              | [] => List.Forall_nil _
              | x :: l' => @List.Forall_cons _ P x l' (F x) (G l')
              end) srcs)
    end).
Qed.

Lemma map_opt_map {A B} (f : B -> option A) (g : A -> B) (l : list A) :
  Forall (fun x => f (g x) = Some x) l -> map_opt f (map g l) = Some l.
Proof. induction 1 as [| x l Hx _ IH]; simpl; [reflexivity |]. rewrite Hx, IH. reflexivity. Qed.

Lemma to_opt_str_of (o : option string) : to_opt_str (of_opt_str o) = Some o.
Proof. destruct o; reflexivity. Qed.

Lemma to_opt_int_of (o : option Z) : to_opt_int (of_opt_int o) = Some o.
Proof. destruct o; reflexivity. Qed.

Lemma checksum_unpack_pack (c : Checksum.t) : checksum_unpack (checksum_pack c) = Some c.
Proof. destruct c; reflexivity. Qed.

Lemma json_size_in_list (l : list json) (x : json) :
  In x l -> (json_size x <= fold_right (fun x acc => json_size x + acc)%nat O l)%nat.
Proof. induction l as [| y l IH]; simpl; [tauto |]. intros [-> | H]; [lia |]. apply IH in H. lia. Qed.

Lemma source_unpack_fuel_pack (s : Source.t) :
  forall n, (json_size (source_pack s) <= n)%nat -> source_unpack_fuel n (source_pack s) = Some s.
Proof.
  induction s as [name path sref hint origin sources ad cks IH] using Source_nested_ind.
  intros [| n] Hn; [simpl in Hn; lia |].
  simpl. rewrite !to_opt_str_of. simpl.
  rewrite (map_opt_map _ _ sources).
  - rewrite (map_opt_map _ _ cks); [reflexivity |].
    apply List.Forall_forall. intros c _. apply checksum_unpack_pack.
  - apply List.Forall_forall. intros x Hx.
    rewrite List.Forall_forall in IH. apply IH; [exact Hx |].
    simpl in Hn.
    pose proof (json_size_in_list (map source_pack sources) (source_pack x)
                  (in_map _ _ _ Hx)).
    lia.
Qed.

Lemma to_str_list_map (l : list string) : to_str_list (JList (map JStr l)) = Some l.
Proof. unfold to_str_list. apply map_opt_map. apply List.Forall_forall. reflexivity. Qed.

Lemma exception_path_segment_unpack_pack (p : ExceptionPathSegment.t) :
  exception_path_segment_unpack (exception_path_segment_pack p) = Some p.
Proof.
  destruct p as [negate names]. unfold exception_path_segment_unpack.
  cbn -[to_str_list]. rewrite to_str_list_map. reflexivity.
Qed.

(** [Source.unpack] inverts [Source.pack]: every source, with any nesting
    of [sources] and any list of checksums, comes back unchanged. *)
Theorem source_pack_roundtrip (s : Source.t) : source_unpack (source_pack s) = Some s.
Proof. unfold source_unpack. apply source_unpack_fuel_pack. lia. Qed.

(** [Breakpoint.unpack] inverts [Breakpoint.pack] for every breakpoint that
    has a source, whatever its other optional fields hold. *)
Theorem breakpoint_roundtrip_with_source (b : Breakpoint.t) :
  Breakpoint.source b <> None -> breakpoint_unpack (breakpoint_pack b) = Some b.
Proof.
  destruct b as [id v msg [s|] line col el ec ir off]; intros H;
    [| exfalso; apply H; reflexivity].
  unfold breakpoint_unpack, breakpoint_pack.
  cbn -[to_opt_int to_opt_str source_unpack of_opt_int of_opt_str source_pack].
  rewrite !to_opt_int_of, !to_opt_str_of. cbn -[source_unpack source_pack].
  unfold source_unpack. rewrite source_unpack_fuel_pack by lia. reflexivity.
Qed.

Lemma breakpoint_roundtrip_with_source_witness :
  Breakpoint.source (Breakpoint.make 1 true None main_source (Some 5) (Some 7)) <> None
  /\ breakpoint_unpack (breakpoint_pack (Breakpoint.make 1 true None main_source (Some 5) (Some 7)))
     = Some (Breakpoint.make 1 true None main_source (Some 5) (Some 7)).
Proof.
  split; [discriminate |].
  apply breakpoint_roundtrip_with_source. discriminate.
Defined.

(** [unpack] inverts [pack] for [Checksum], [SourceBreakpoint], [Thread],
    [Capabilities] and [ExceptionFilterOptions]. *)
Theorem flat_entities_roundtrip :
  (forall c, checksum_unpack (checksum_pack c) = Some c)
  /\ (forall b, source_breakpoint_unpack (source_breakpoint_pack b) = Some b)
  /\ (forall th, thread_unpack (thread_pack th) = Some th)
  /\ (forall c, capabilities_unpack (capabilities_pack c) = Some c)
  /\ (forall o, exception_filter_options_unpack (exception_filter_options_pack o) = Some o).
Proof.
  repeat split.
  - exact checksum_unpack_pack.
  - intros [line column condition hit log]. destruct column, condition, hit, log; reflexivity.
  - intros []; reflexivity.
  - intros []; reflexivity.
  - intros [f c]. destruct c; reflexivity.
Qed.

(** [unpack] inverts [pack] for [ExceptionPathSegment] and for
    [ExceptionOptions] with any list of path segments. *)
Theorem exception_options_roundtrip :
  (forall p, exception_path_segment_unpack (exception_path_segment_pack p) = Some p)
  /\ (forall o, exception_options_unpack (exception_options_pack o) = Some o).
Proof.
  split; [exact exception_path_segment_unpack_pack |].
  intros [path mode]. unfold exception_options_unpack. simpl.
  rewrite map_opt_map; [reflexivity |].
  apply List.Forall_forall. intros p _. apply exception_path_segment_unpack_pack.
Qed.

(** [Message.unpack] inverts [Message.pack], including its [variables]
    dict and the optional [url] and [urlLabel]. *)
Theorem message_roundtrip (m : Message.t) : message_unpack (message_pack m) = Some m.
Proof.
  destruct m as [id format vars tele show url label].
  unfold message_unpack, message_pack.
  cbn -[to_opt_str of_opt_str to_str_dict].
  rewrite !to_opt_str_of.
  assert (Hv : to_str_dict (JObj (map (fun '(k, v) => (k, JStr v)) vars)) = Some vars).
  { unfold to_str_dict. apply map_opt_map. apply List.Forall_forall. intros [k v] _.
    reflexivity. }
  rewrite Hv. reflexivity.
Qed.



(* ------------------------------------------------------------------ *)
(** ** [register_path_breakpoint] *)

Lemma len_padded (old : line_info) (line : Z) :
  len (old ++ repeat None (Z.to_nat (1 + line - len old))) = Z.max (len old) (line + 1).
Proof. unfold len. rewrite length_app, repeat_length. lia. Qed.

(** For a non-negative line, the padded sequence is long enough and the
    store [file_lines[line] = bp_type] succeeds. *)
Lemma register_py_set (old : line_info) (line : Z) (x : option Z) :
  0 <= line ->
  py_set (old ++ repeat None (Z.to_nat (1 + line - len old))) line x
  = Some (<[Z.to_nat line := x]> (old ++ repeat None (Z.to_nat (1 + line - len old)))).
Proof.
  intros Hl. unfold py_set. rewrite len_padded.
  destruct (Z.ltb_spec line 0); [lia |].
  destruct (Z.ltb_spec line 0); [lia |].
  destruct (Z.leb_spec (Z.max (len old) (line + 1)) line); [lia |]. reflexivity.
Qed.

Lemma register_line_update (old : line_info) (line bp_type : Z) (V : line_info) :
  0 <= line ->
  py_set (old ++ repeat None (Z.to_nat (1 + line - len old))) line (Some bp_type) = Some V ->
  len V = Z.max (len old) (line + 1)
  /\ nth_error V (Z.to_nat line) = Some (Some bp_type)
  /\ (forall i, 0 <= i < len old -> i <> line ->
        nth_error V (Z.to_nat i) = nth_error old (Z.to_nat i))
  /\ (forall i, len old <= i < line -> nth_error V (Z.to_nat i) = Some None).
Proof.
  intros Hl Hs. rewrite register_py_set in Hs by exact Hl. injection Hs as <-.
  pose proof (len_padded old line) as Hlen.
  assert (Hold : 0 <= len old) by (unfold len; lia).
  set (fl := old ++ repeat None (Z.to_nat (1 + line - len old))) in *.
  repeat split.
  - unfold len in *. rewrite length_insert. exact Hlen.
  - rewrite <- lookup_nth_error. apply list_lookup_insert_eq. unfold len in Hlen. lia.
  - intros i Hi Hne. rewrite <- !lookup_nth_error.
    rewrite list_lookup_insert_ne by lia. rewrite !lookup_nth_error.
    unfold fl. apply nth_error_app1. unfold len in Hi. lia.
  - intros i Hi. rewrite <- lookup_nth_error.
    rewrite list_lookup_insert_ne by lia. rewrite lookup_nth_error.
    unfold fl. rewrite nth_error_app2 by (unfold len in Hi; lia).
    apply nth_error_repeat. unfold len in *. lia.
Qed.

(** [register_path_breakpoint(path, line, bp_type)] with [line >= 0]
    stores for [path] the previous sequence ([[0]] when the path was
    unknown), padded with continuations up to [line], with [bp_type] at
    [line]: its length is [max(len(old), line + 1)], the other old entries
    are kept and the padding entries are continuations. The sequences of
    the other paths are untouched. *)
Theorem register_path_breakpoint_stores_line (self self' : AD.t) (path : string)
    (line bp_type : Z) :
  0 <= line ->
  register_path_breakpoint self path line bp_type = Some self' ->
  let old := default [Some 0] (AD.source_info self !! path) in
  exists V,
    AD.source_info self' !! path = Some V
    /\ len V = Z.max (len old) (line + 1)
    /\ nth_error V (Z.to_nat line) = Some (Some bp_type)
    /\ (forall i, 0 <= i < len old -> i <> line ->
          nth_error V (Z.to_nat i) = nth_error old (Z.to_nat i))
    /\ (forall i, len old <= i < line -> nth_error V (Z.to_nat i) = Some None)
    /\ (forall p, p <> path -> AD.source_info self' !! p = AD.source_info self !! p).
Proof.
  intros Hl Hreg old.
  destruct (register_path_breakpoint_spec _ _ _ _ _ Hreg) as (V & Hs & Hsi & _).
  destruct (register_line_update old line bp_type V Hl Hs) as (H1 & H2 & H3 & H4).
  exists V. rewrite Hsi. split; [apply lookup_insert_eq |].
  repeat split; auto.
  intros p Hp. apply lookup_insert_ne. congruence.
Qed.

Lemma register_path_breakpoint_stores_line_witness :
  exists self',
    register_path_breakpoint fresh_debugger main_path 3 1 = Some self'
    /\ exists V, AD.source_info self' !! main_path = Some V
                 /\ nth_error V 3 = Some (Some 1) /\ len V = 4.
Proof.
  pose (s1 := default fresh_debugger (register_path_breakpoint fresh_debugger main_path 3 1)).
  assert (H1 : register_path_breakpoint fresh_debugger main_path 3 1 = Some s1)
    by (vm_compute; reflexivity).
  exists s1. split; [exact H1 |].
  destruct (register_path_breakpoint_stores_line fresh_debugger s1 main_path 3 1)
    as (V & HV & Hlen & Hline & _); [lia | exact H1 |].
  exists V. split; [exact HV |]. split; [exact Hline |].
  rewrite Hlen. reflexivity.
Defined.

Lemma padded_set_wf (old : line_info) (line y : Z) :
  lines_wf old -> 0 <= line ->
  lines_wf (<[Z.to_nat line := Some y]> (old ++ repeat None (Z.to_nat (1 + line - len old)))).
Proof.
  intros [x0 H0] Hl. pose proof (nth_error_range _ _ _ H0) as Hr.
  unfold lines_wf. rewrite <- lookup_nth_error.
  destruct (Nat.eq_dec (Z.to_nat line) O) as [E | E].
  - exists y. rewrite E. apply list_lookup_insert_eq. rewrite length_app. lia.
  - exists x0. rewrite list_lookup_insert_ne by lia. rewrite lookup_nth_error.
    rewrite nth_error_app1 by lia. exact H0.
Qed.

Lemma reresolve_loop_total (path : string) (V : line_info) (bps : list (Z * ALB.t)) :
  lines_wf V ->
  Forall (fun kb => 0 <= SourceBreakpoint.line (ALB.source_breakpoint (snd kb))) bps ->
  exists r, reresolve_loop path V bps = Some r.
Proof.
  intros Hwf. induction 1 as [| [k b] rest Hb _ [[rest' evs] IH]]; simpl; [eauto |].
  rewrite IH.
  destruct (negb (String.eqb (ALB.path b) path)); [eauto |].
  simpl in Hb. rewrite (resolve_in_register_spec V _ Hwf Hb).
  destruct (SpecResolution.resolve V _) as [[[v m] s] e].
  destruct (_ || _); eauto.
Qed.

Lemma reresolved_fields (path : string) (V : line_info) (kb kb' : Z * ALB.t) :
  reresolved path V kb kb' ->
  fst kb' = fst kb /\ ALB.id (snd kb') = ALB.id (snd kb)
  /\ ALB.source (snd kb') = ALB.source (snd kb)
  /\ ALB.source_breakpoint (snd kb') = ALB.source_breakpoint (snd kb).
Proof.
  intros [Hk Hb]. cbv zeta in Hb. split; [exact Hk |].
  destruct (String.eqb (ALB.path (snd kb)) path).
  - destruct Hb as (v & m & s & e & _ & ->).
    destruct (bool_decide _); simpl; auto.
  - subst kb'. auto.
Qed.

(** After a re-resolution against [V], every breakpoint of [path] reports
    the resolution of its requested line in [V]. *)
Lemma reresolved_consistent (path : string) (V : line_info) (kb kb' : Z * ALB.t) :
  reresolved path V kb kb' ->
  on_path path kb' = true ->
  exists v m s e,
    resolve_in_register V (ALB.source_breakpoint (snd kb')) = Some (v, m, s, e)
    /\ triple (ALB.breakpoint (snd kb')) = (v, Some s, Some e).
Proof.
  intros Hr Hp. pose proof (reresolved_fields _ _ _ _ Hr) as (_ & _ & Hs & Hsb).
  destruct Hr as [_ Hb]. cbv zeta in Hb. unfold on_path, ALB.path in Hp. rewrite Hs in Hp.
  unfold ALB.path in Hb. rewrite Hp in Hb.
  destruct Hb as (v & m & s & e & Hres & Hkb').
  rewrite Hsb. exists v, m, s, e. split; [exact Hres |].
  rewrite Hkb'. destruct (bool_decide _) eqn:Ed.
  - apply bool_decide_eq_true_1 in Ed. exact Ed.
  - reflexivity.
Qed.

Lemma register_consistent (self self' : AD.t) (path : string) (line bp_type : Z) :
  register_path_breakpoint self path line bp_type = Some self' ->
  exists V,
    AD.source_info self' !! path = Some V
    /\ Forall (fun kb => on_path path kb = true ->
                exists v m s e,
                  resolve_in_register V (ALB.source_breakpoint (snd kb)) = Some (v, m, s, e)
                  /\ triple (ALB.breakpoint (snd kb)) = (v, Some s, Some e))
              (AD.breakpoints self').
Proof.
  intros Hreg.
  destruct (register_path_breakpoint_spec _ _ _ _ _ Hreg) as (V & _ & Hsi & Hf & _).
  exists V. rewrite Hsi. split; [apply lookup_insert_eq |].
  clear Hsi Hreg. induction Hf as [| kb kb' l l' Hr _ IH]; constructor; [| exact IH].
  apply (reresolved_consistent _ _ _ _ Hr).
Qed.

(** A re-resolution that finds every breakpoint of [path] already
    reporting its resolution changes nothing and queues nothing. *)
Lemma reresolve_loop_fixed (path : string) (V : line_info) (bps : list (Z * ALB.t)) :
  Forall (fun kb => on_path path kb = true ->
            exists v m s e,
              resolve_in_register V (ALB.source_breakpoint (snd kb)) = Some (v, m, s, e)
              /\ triple (ALB.breakpoint (snd kb)) = (v, Some s, Some e)) bps ->
  reresolve_loop path V bps = Some (bps, []).
Proof.
  induction 1 as [| [k b] l Hb _ IH]; simpl; [reflexivity |].
  unfold on_path in Hb. simpl in Hb.
  destruct (String.eqb (ALB.path b) path) eqn:Ep; simpl.
  - destruct (Hb eq_refl) as (v & m & s & e & Hres & Ht).
    rewrite Hres, changed_test, Ht.
    rewrite bool_decide_eq_true_2 by reflexivity. simpl. rewrite IH. reflexivity.
  - rewrite IH. reflexivity.
Qed.

(** [register_path_breakpoint] never fails (no [IndexError]) when every
    stored sequence is well formed, every stored breakpoint has a
    non-negative requested line, and the learned line is non-negative; the
    debugger it returns keeps both properties. *)
Theorem register_path_breakpoint_total (self : AD.t) (path : string) (line bp_type : Z) :
  (forall p V, AD.source_info self !! p = Some V -> lines_wf V) ->
  Forall (fun kb => 0 <= SourceBreakpoint.line (ALB.source_breakpoint (snd kb)))
    (AD.breakpoints self) ->
  0 <= line ->
  exists self',
    register_path_breakpoint self path line bp_type = Some self'
    /\ (forall p V, AD.source_info self' !! p = Some V -> lines_wf V)
    /\ Forall (fun kb => 0 <= SourceBreakpoint.line (ALB.source_breakpoint (snd kb)))
         (AD.breakpoints self').
Proof.
  intros Hwf Hsb Hl.
  set (old := default [Some 0] (AD.source_info self !! path)).
  assert (Hold : lines_wf old).
  { unfold old. destruct (AD.source_info self !! path) eqn:E; simpl; eauto.
    exists 0. reflexivity. }
  pose proof (padded_set_wf old line bp_type Hold Hl) as HV.
  destruct (reresolve_loop_total path _ (AD.breakpoints self) HV Hsb) as [[bps evs] Hr].
  assert (Hreg : register_path_breakpoint self path line bp_type
                 = Some (AD.mk (AD.connected self) bps (AD.breakpoint_counter self)
                           (<[path := <[Z.to_nat line := Some bp_type]>
                                        (old ++ repeat None (Z.to_nat (1 + line - len old)))]>
                              (AD.source_info self))
                           (AD.send_queue self ++ evs))).
  { unfold register_path_breakpoint. fold old. rewrite register_py_set by exact Hl.
    rewrite Hr. reflexivity. }
  eexists. split; [exact Hreg |]. split.
  - exact (register_path_breakpoint_lines_wf _ _ _ _ _ Hwf Hreg).
  - apply reresolve_loop_spec in Hr as [Hf _]. simpl.
    clear Hreg. induction Hf as [| kb kb' l l' Hrr _ IH]; constructor.
    + destruct (reresolved_fields _ _ _ _ Hrr) as (_ & _ & _ & ->).
      exact (List.Forall_inv Hsb).
    + exact (IH (List.Forall_inv_tail Hsb)).
Qed.

Lemma register_path_breakpoint_total_witness :
  exists self',
    register_path_breakpoint scenario_b_first main_path 7 1 = Some self'
    /\ (forall p V, AD.source_info self' !! p = Some V -> lines_wf V).
Proof.
  destruct (register_path_breakpoint_total scenario_b_first main_path 7 1)
    as (self' & H1 & H2 & _).
  - intros p V H. vm_compute in H. discriminate.
  - vm_compute. repeat constructor; discriminate.
  - lia.
  - exists self'. split; assumption.
Defined.

(** After [register_path_breakpoint] every breakpoint of [path] reports
    (verified, line, end_line) equal to the resolution of its requested
    line in the sequence now stored for [path]. *)
Theorem register_path_breakpoint_consistent (self self' : AD.t) (path : string)
    (line bp_type : Z) :
  register_path_breakpoint self path line bp_type = Some self' ->
  exists V,
    AD.source_info self' !! path = Some V
    /\ Forall (fun kb => on_path path kb = true ->
                exists v m s e,
                  resolve_in_register V (ALB.source_breakpoint (snd kb)) = Some (v, m, s, e)
                  /\ triple (ALB.breakpoint (snd kb)) = (v, Some s, Some e))
              (AD.breakpoints self').
Proof. apply register_consistent. Qed.

Lemma register_path_breakpoint_consistent_witness :
  exists self' V,
    register_path_breakpoint scenario_b_first main_path 7 1 = Some self'
    /\ AD.source_info self' !! main_path = Some V.
Proof.
  pose (s1 := default fresh_debugger (register_path_breakpoint scenario_b_first main_path 7 1)).
  assert (H1 : register_path_breakpoint scenario_b_first main_path 7 1 = Some s1)
    by (vm_compute; reflexivity).
  destruct (register_path_breakpoint_consistent scenario_b_first s1 main_path 7 1 H1)
    as (V & HV & _).
  exists s1, V. split; [exact H1 | exact HV].
Defined.

(** Learning the same line of the same path twice is idempotent: the
    second [register_path_breakpoint] leaves the debugger exactly as the
    first one left it, with no further "changed" event. *)
Theorem register_path_breakpoint_idempotent (self self' : AD.t) (path : string)
    (line bp_type : Z) :
  0 <= line ->
  register_path_breakpoint self path line bp_type = Some self' ->
  register_path_breakpoint self' path line bp_type = Some self'.
Proof.
  intros Hl Hreg.
  destruct (register_path_breakpoint_spec _ _ _ _ _ Hreg) as (V & Hs & Hsi & _).
  destruct (register_line_update _ line bp_type V Hl Hs) as (Hlen & Hline & _).
  destruct (register_consistent _ _ _ _ _ Hreg) as (V' & HV' & Hf).
  rewrite Hsi, lookup_insert_eq in HV'. injection HV' as <-.
  unfold register_path_breakpoint. rewrite Hsi, lookup_insert_eq. simpl.
  replace (Z.to_nat (1 + line - len V)) with O by lia. simpl. rewrite app_nil_r.
  unfold py_set.
  destruct (Z.ltb_spec line 0); [lia |].
  destruct (Z.ltb_spec line 0); [lia |].
  destruct (Z.leb_spec (len V) line); [lia |]. simpl.
  rewrite list_insert_id by (rewrite lookup_nth_error; exact Hline).
  rewrite (reresolve_loop_fixed _ _ _ Hf).
  rewrite <- Hsi. rewrite insert_id by (rewrite Hsi; apply lookup_insert_eq).
  rewrite app_nil_r. destruct self'; reflexivity.
Qed.

Lemma register_path_breakpoint_idempotent_witness :
  exists self',
    register_path_breakpoint scenario_b_first main_path 7 1 = Some self'
    /\ register_path_breakpoint self' main_path 7 1 = Some self'.
Proof.
  pose (s1 := default fresh_debugger (register_path_breakpoint scenario_b_first main_path 7 1)).
  assert (H1 : register_path_breakpoint scenario_b_first main_path 7 1 = Some s1)
    by (vm_compute; reflexivity).
  exists s1. split; [exact H1 |].
  apply (register_path_breakpoint_idempotent scenario_b_first s1 main_path 7 1); [lia | exact H1].
Defined.

(* ------------------------------------------------------------------ *)
(** ** The [SetBreakpointsRequest] handler: totality and its answers *)





(** The breakpoint the handler answers for a source flagged as modified. *)
Lemma set_breakpoints_loop_modified (msg : SetBreakpointsRequest.t) (si : option line_info)
    (sbs : list SourceBreakpoint.t) (counter : Z) (bps : list (Z * ALB.t))
    (info : list Breakpoint.t) :
  SetBreakpointsRequest.source_modified msg = true ->
  set_breakpoints_loop msg si sbs counter bps info
  = Some (counter + len sbs, bps,
          info ++ map (fun i => Breakpoint.make i false
                                  (Some "Cannot set breakpoint on a modified source.")
                                  (SetBreakpointsRequest.source msg) None None)
                      (seqZ counter (len sbs))).
Proof.
  intros Hm. revert counter info.
  induction sbs as [| sb rest IH]; intros counter info.
  - simpl. rewrite app_nil_r. repeat f_equal. unfold len; simpl; lia.
  - simpl set_breakpoints_loop. rewrite Hm. rewrite IH.
    rewrite seqZ_len_cons, len_cons. simpl. rewrite <- app_assoc.
    replace (counter + 1 + len rest) with (counter + (len rest + 1)) by lia. reflexivity.
Qed.

(** A [SetBreakpointsRequest] whose source is flagged as modified always
    succeeds: it removes every breakpoint of the path, stores none, still
    consumes one id per requested breakpoint, and answers each of them as
    unverified with "Cannot set breakpoint on a modified source." and no
    line or end line. *)
Theorem modified_source_rejected (self : AD.t) (msg : SetBreakpointsRequest.t) :
  SetBreakpointsRequest.source_modified msg = true ->
  let P := or_empty (Source.path (SetBreakpointsRequest.source msg)) in
  let c := AD.breakpoint_counter self in
  let n := len (SetBreakpointsRequest.breakpoints msg) in
  process_set_breakpoints self msg
  = Some (AD.mk (AD.connected self)
            (List.filter (fun kb => negb (on_path P kb)) (AD.breakpoints self))
            (c + n) (AD.source_info self)
            (AD.send_queue self
             ++ [SetBreakpointsResponse (SetBreakpointsRequest.seq msg)
                   (map (fun i => Breakpoint.make i false
                                    (Some "Cannot set breakpoint on a modified source.")
                                    (SetBreakpointsRequest.source msg) None None)
                        (seqZ c n))])).
Proof.
  intros Hm P c n. unfold process_set_breakpoints.
  rewrite set_breakpoints_loop_modified by exact Hm. simpl.
  f_equal. f_equal. apply List.filter_ext. intros [k b]. reflexivity.
Qed.

Lemma modified_source_rejected_witness :
  process_set_breakpoints scenario_b_first
    (SetBreakpointsRequest.mk 2 main_source [sb_at 4] true)
  = Some (AD.mk true [] 4 ∅
            (AD.send_queue scenario_b_first
             ++ [SetBreakpointsResponse 2
                   [Breakpoint.make 3 false (Some "Cannot set breakpoint on a modified source.")
                      main_source None None]])).
Proof.
  rewrite (modified_source_rejected scenario_b_first
             (SetBreakpointsRequest.mk 2 main_source [sb_at 4] true) eq_refl).
  vm_compute. reflexivity.
Defined.

Lemma set_breakpoints_loop_reported (msg : SetBreakpointsRequest.t) (si : option line_info)
    (sbs : list SourceBreakpoint.t) (counter : Z) (bps : list (Z * ALB.t))
    (info : list Breakpoint.t) (c' : Z) (bps' : list (Z * ALB.t))
    (info' : list Breakpoint.t) :
  SetBreakpointsRequest.source_modified msg = false ->
  Forall (fun kb => fst kb < counter) bps ->
  set_breakpoints_loop msg si sbs counter bps info = Some (c', bps', info') ->
  exists stored,
    bps' = bps ++ stored
    /\ info' = info ++ map (fun kb => ALB.breakpoint (snd kb)) stored
    /\ Forall (fun kb => ALB.source (snd kb) = SetBreakpointsRequest.source msg) stored.
Proof.
  intros Hm. revert counter bps info.
  induction sbs as [| sb rest IH]; intros counter bps info Hb Hl.
  - simpl in Hl. injection Hl as <- <- <-.
    exists []. rewrite !app_nil_r. split; [reflexivity |]. split; [reflexivity | constructor].
  - simpl in Hl. rewrite Hm in Hl.
    set (obp := match si with
                | Some [] | None => _
                | Some _ => _ end) in Hl.
    destruct obp as [bp|] eqn:Hobp; [| discriminate].
    rewrite dict_set_fresh in Hl by exact Hb.
    apply IH in Hl as (stored & Hs & Hi & Hf).
    2:{ apply Forall_app. split; [eapply Forall_weaken_lt; [| exact Hb]; lia |].
        repeat constructor. simpl. lia. }
    eexists. split; [rewrite Hs, <- app_assoc; reflexivity |].
    split; [rewrite Hi, <- app_assoc; reflexivity |].
    constructor; [reflexivity | exact Hf].
Qed.

(** For a source not flagged as modified, the breakpoints the handler
    answers are exactly the breakpoints it stores for the path, in the same
    order: the response and the debugger's state agree. *)
Theorem set_breakpoints_stores_reported (self self' : AD.t) (msg : SetBreakpointsRequest.t) :
  ids_below self ->
  SetBreakpointsRequest.source_modified msg = false ->
  process_set_breakpoints self msg = Some self' ->
  let P := or_empty (Source.path (SetBreakpointsRequest.source msg)) in
  AD.send_queue self'
  = AD.send_queue self
    ++ [SetBreakpointsResponse (SetBreakpointsRequest.seq msg)
          (map (fun kb => ALB.breakpoint (snd kb))
               (List.filter (on_path P) (AD.breakpoints self')))].
Proof.
  intros Hids Hm Hp P. unfold process_set_breakpoints in Hp. fold P in Hp.
  set (keep := fun '((_, b) : Z * ALB.t) => negb (String.eqb (ALB.path b) P)) in Hp.
  destruct (set_breakpoints_loop _ _ _ _ _ _) as [[[c' bps'] info'] |] eqn:Hl;
    [| discriminate].
  injection Hp as <-. simpl.
  apply set_breakpoints_loop_reported in Hl as (stored & -> & -> & Hf);
    [| exact Hm | apply Forall_list_filter; exact Hids].
  rewrite List.filter_app.
  rewrite (filter_none keep (on_path P)).
  2:{ intros [k b] Hk. unfold keep in Hk. unfold on_path. simpl.
      destruct (String.eqb (ALB.path b) P); [discriminate | reflexivity]. }
  rewrite filter_all.
  - reflexivity.
  - eapply Forall_impl; [exact Hf |]. intros [k b] Hb. unfold on_path, ALB.path. simpl.
    simpl in Hb. rewrite Hb. apply String.eqb_refl.
Qed.

Lemma set_breakpoints_stores_reported_witness :
  exists self',
    process_set_breakpoints scenario_b_first (set_request 2 [3]) = Some self'
    /\ AD.send_queue self'
       = AD.send_queue scenario_b_first
         ++ [SetBreakpointsResponse 2
               (map (fun kb => ALB.breakpoint (snd kb))
                    (List.filter (on_path main_path) (AD.breakpoints self')))].
Proof.
  pose (s1 := default fresh_debugger (process_set_breakpoints scenario_b_first (set_request 2 [3]))).
  assert (H1 : process_set_breakpoints scenario_b_first (set_request 2 [3]) = Some s1)
    by (vm_compute; reflexivity).
  exists s1. split; [exact H1 |].
  apply (set_breakpoints_stores_reported scenario_b_first s1 (set_request 2 [3])).
  - vm_compute. repeat constructor.
  - reflexivity.
  - exact H1.
Defined.

(* ------------------------------------------------------------------ *)
(** ** The resolved range *)

(** For a well-formed sequence [V] and a requested line [L >= 0] the
    resolution succeeds and reports a range [s..e] inside [V] with
    [s <= L], which reaches [L] when [L] is inside [V]: [V[s]] is the last
    non-continuation entry at or before [min(L, len(V)-1)], [V[s+1..e]] are
    continuations and the entry after [e], if any, is not; the breakpoint
    is verified exactly when [V[s]] is not [0], and only an unverified one
    carries the message "Breakpoint cannot be set here.". *)
Theorem resolution_range (V : line_info) (sb : SourceBreakpoint.t) :
  lines_wf V -> 0 <= SourceBreakpoint.line sb ->
  let L := SourceBreakpoint.line sb in
  exists verified msg s e,
    resolve_in_register V sb = Some (verified, msg, s, e)
    /\ 0 <= s <= L /\ s <= e < len V
    /\ (L < len V -> L <= e)
    /\ (exists t, nth_error V (Z.to_nat s) = Some (Some t)
                  /\ (verified = true <-> t <> 0)
                  /\ msg = (if verified then None else Some "Breakpoint cannot be set here."))
    /\ (forall k, s < k <= e -> nth_error V (Z.to_nat k) = Some None)
    /\ (e + 1 < len V -> exists t, nth_error V (Z.to_nat (e + 1)) = Some (Some t)).
Proof.
  intros [x0 H0] HL L.
  assert (Hlen : 1 <= len V)
    by (pose proof (nth_error_range _ _ _ H0); unfold len; lia).
  unfold resolve_in_register. fold L.
  set (s0 := Z.min L (len V - 1)).
  assert (Hs0 : 0 <= s0 < len V) by (unfold s0; lia).
  rewrite py_get_nonneg by lia.
  destruct (nth_error_in_range V (Z.to_nat s0)) as [e0 He0]; [unfold len in *; lia |].
  rewrite He0.
  destruct (scan_back_spec V x0 H0 (back_fuel V) s0 e0) as (b & ty & Hsb & Hb & Hbt & Hbk);
    try lia; auto.
  { unfold back_fuel, len in *. lia. }
  rewrite Hsb.
  destruct (scan_fwd_spec V (Z.to_nat (len V - (s0 + 1))) (s0 + 1)) as (r & Hsf & Hr & Hrs & Hrk);
    try lia; auto.
  rewrite Hsf.
  replace (Z.min (r - 1) (len V)) with (r - 1) by lia.
  assert (Hrange : forall k, b < k <= r - 1 -> nth_error V (Z.to_nat k) = Some None).
  { intros k Hk. destruct (Z_le_gt_dec k s0); [apply Hbk | apply Hrk]; lia. }
  assert (Hnext : r - 1 + 1 < len V -> exists t, nth_error V (Z.to_nat (r - 1 + 1)) = Some (Some t)).
  { intros Hlt. replace (r - 1 + 1) with r by lia.
    destruct Hrs as [-> | Ht]; [lia | exact Ht]. }
  destruct (Z.eqb_spec ty 0) as [Hty | Hty]; do 4 eexists; (split; [reflexivity |]);
    (split; [unfold s0 in Hb; lia |]); (split; [lia |]);
    (split; [intros HLt; unfold s0 in *; lia |]);
    (split; [exists ty; split; [exact Hbt |]; split; [split; congruence | reflexivity] |]);
    split; assumption.
Qed.

Lemma resolution_range_witness :
  resolve_in_register [Some 0; Some 1; None; None; Some 0] (sb_at 3)
  = Some (true, None, 1, 3).
Proof.
  destruct (resolution_range [Some 0; Some 1; None; None; Some 0] (sb_at 3))
    as (v & m & s & e & H & _); [exists 0; reflexivity | simpl; lia |].
  rewrite H. vm_compute in H. exact (eq_sym H).
Defined.

(* ------------------------------------------------------------------ *)
(** ** Continue and step requests *)



Lemma keys_map_set {V} (w : list (Z * V)) (f : Z * V -> V) :
  map fst (map (fun kv => (fst kv, f kv)) w) = map fst w.
Proof. rewrite map_map. reflexivity. Qed.




Lemma dict_pop_set {V} (w : list (Z * V)) (k : Z) (a : V) :
  List.NoDup (map fst w) ->
  dict_pop (dict_set w k a) k = Some (a, List.filter (fun kv => negb (fst kv =? k)) w).
Proof.
  induction w as [| [k' v'] w IH]; intros Hnd; simpl.
  - rewrite Z.eqb_refl. reflexivity.
  - apply NoDup_cons_iff in Hnd as [Hn Hnd].
    destruct (Z.eqb_spec k' k) as [-> | Hne]; simpl.
    + rewrite Z.eqb_refl. simpl. f_equal. f_equal. symmetry. apply filter_all.
      apply List.Forall_forall. intros [k'' v''] Hin. simpl.
      destruct (Z.eqb_spec k'' k) as [-> |]; [| reflexivity].
      exfalso. apply Hn. apply (in_map fst _ _ Hin).
    + destruct (Z.eqb_spec k' k); [congruence |]. rewrite IH by exact Hnd. reflexivity.
Qed.

Lemma wait_released_set_other (w : list (Z * option stepping)) (k t : Z) (a : option stepping) (n : nat) :
  t <> k ->
  wait_released (DebugState.mk (dict_set w k a) n) t = wait_released (DebugState.mk w n) t.
Proof.
  intros Hne. unfold wait_released. simpl.
  induction w as [| [k' v'] w IH]; simpl.
  - destruct (Z.eqb_spec k t); [congruence | reflexivity].
  - destruct (Z.eqb_spec k' k) as [-> |]; simpl.
    + destruct (Z.eqb_spec k t); [congruence | reflexivity].
    + rewrite IH. reflexivity.
Qed.

Lemma dict_pop_in {V} (d : list (Z * V)) (k : Z) (r : V * list (Z * V)) :
  dict_pop d k = Some r -> existsb (fun kv => fst kv =? k) d = true.
Proof.
  revert r. induction d as [| [k' v] d IH]; intros r H; simpl in *; [discriminate |].
  destruct (k' =? k); [reflexivity |]. simpl.
  destruct (dict_pop d k) as [r' |] eqn:E; [| discriminate]. apply (IH r' eq_refl).
Qed.

(** A single-thread [continue_request] and the [step_in], [step_out] and
    [step_over] requests release exactly the thread they name: once woken
    it pops the requested action (none for a continue), the entries of the
    other waiting threads are unchanged, and no other thread is released. *)
Theorem single_thread_requests_release_thread (st : DebugState.t) (tid : Z) :
  List.NoDup (map fst (DebugState.waiting_threads st)) ->
  let released (a : option stepping) (st' : DebugState.t) :=
    wait_released st' tid = true
    /\ dict_pop (DebugState.waiting_threads st') tid
       = Some (a, List.filter (fun kv => negb (fst kv =? tid)) (DebugState.waiting_threads st))
    /\ (forall t, t <> tid -> wait_released st' t = wait_released st t) in
  released None (fst (continue_request st true tid))
  /\ snd (continue_request st true tid) = false
  /\ released (Some StepIn) (step_in st tid)
  /\ released (Some StepOut) (step_out st tid)
  /\ released (Some StepOver) (step_over st tid).
Proof.
  intros Hnd released.
  assert (H : forall a, released a (continue_threads st [tid] a)).
  { intros a. unfold released, continue_threads. simpl.
    destruct st as [w n]. simpl in *. split; [| split].
    - unfold wait_released. simpl.
      apply (dict_pop_in _ _ (a, List.filter (fun kv => negb (fst kv =? tid)) w)).
      apply dict_pop_set. exact Hnd.
    - apply dict_pop_set. exact Hnd.
    - intros t Ht. apply wait_released_set_other. exact Ht. }
  split; [apply H |]. split; [reflexivity |].
  split; [apply H |]. split; apply H.
Qed.

Lemma single_thread_requests_release_thread_witness :
  dict_pop (DebugState.waiting_threads (step_in (DebugState.mk [(1, None)] 0) 2)) 2
  = Some (Some StepIn, [(1, None)]).
Proof.
  destruct (single_thread_requests_release_thread (DebugState.mk [(1, None)] 0) 2)
    as (_ & _ & (_ & H & _) & _); [repeat constructor; simpl; tauto |].
  rewrite H. reflexivity.
Defined.

(* ------------------------------------------------------------------ *)
(** ** Resuming a stopped thread *)

Lemma include_ancestor_spec (is_include : string -> bool) :
  forall (task t : Task.t), include_ancestor is_include task = Some t ->
  Task.is_task t = true /\ is_include (Task.action t) = true
  /\ has_ancestor_uuid (Task.uuid t) task = true.
Proof.
  fix IH 1. intros [u it a [p |]] t H; simpl in H; [| discriminate].
  simpl. destruct (Task.is_task p && is_include (Task.action p)) eqn:E.
  - injection H as <-. apply andb_true_iff in E as [E1 E2].
    rewrite String.eqb_refl. auto.
  - destruct (IH p t H) as (H1 & H2 & H3). rewrite H3, orb_true_r. auto.
Qed.

Lemma dict_pop_removes {V} (d d' : list (Z * V)) (k : Z) (v : V) :
  List.NoDup (map fst d) -> dict_pop d k = Some (v, d') ->
  existsb (fun kv => fst kv =? k) d' = false.
Proof.
  revert d'. induction d as [| [k' v'] d IH]; intros d' Hnd H; simpl in H; [discriminate |].
  apply NoDup_cons_iff in Hnd as [Hn Hnd].
  destruct (Z.eqb_spec k' k) as [-> | Hne].
  - injection H as _ <-. apply not_true_is_false. intros Hex.
    apply existsb_exists in Hex as [[k'' v''] [Hin Hk]]. simpl in Hk.
    apply Z.eqb_eq in Hk as ->. apply Hn. apply (in_map fst _ _ Hin).
  - destruct (dict_pop d k) as [[v'' r] |] eqn:E; [| discriminate].
    simpl in H. injection H as <- <-. simpl.
    destruct (Z.eqb_spec k' k); [congruence |]. simpl. exact (IH r Hnd eq_refl).
Qed.

(** When a stopped thread resumes, it keeps its id, its entry leaves
    [_waiting_threads], and its new stepping mode fits the task it stopped
    at: step-in mode survives only at an include task (elsewhere the
    request becomes step-over), the stepping task of step-in and step-over
    mode is the task itself, the stepping task of step-out mode, when there
    is one, is an include [Task] among the task's ancestors, and a plain
    continue clears both. *)
Theorem resume_stepping_mode (is_include : string -> bool) (st st' : DebugState.t)
    (thread thread' : AnsibleThread.t) (task : Task.t) :
  List.NoDup (map fst (DebugState.waiting_threads st)) ->
  resume_thread is_include st thread task = Some (st', thread') ->
  AnsibleThread.id thread' = AnsibleThread.id thread
  /\ wait_released st' (AnsibleThread.id thread) = false
  /\ (AnsibleThread.stepping_type thread' = Some StepIn ->
        is_include (Task.action task) = true
        /\ AnsibleThread.stepping_task thread' = Some task)
  /\ (AnsibleThread.stepping_type thread' = Some StepOver ->
        AnsibleThread.stepping_task thread' = Some task)
  /\ (forall t, AnsibleThread.stepping_type thread' = Some StepOut ->
        AnsibleThread.stepping_task thread' = Some t ->
        Task.is_task t = true /\ is_include (Task.action t) = true
        /\ has_ancestor_uuid (Task.uuid t) task = true)
  /\ (AnsibleThread.stepping_type thread' = None ->
        AnsibleThread.stepping_task thread' = None).
Proof.
  intros Hnd. unfold resume_thread.
  destruct (dict_pop _ _) as [[a w] |] eqn:Ep; [| discriminate].
  pose proof (dict_pop_removes _ _ _ _ Hnd Ep) as Hrm.
  destruct a as [[| |] |]; simpl;
    [destruct (is_include (Task.action task)) eqn:Ei | | |]; intros [= <- <-];
    simpl; (split; [reflexivity |]); (split; [exact Hrm |]);
    (split; [| split; [| split]]); intros; try discriminate; auto.
  all: try (apply include_ancestor_spec; assumption).
  all: try (split; [reflexivity | reflexivity]).
Qed.

Lemma resume_stepping_mode_witness :
  resume_thread (String.eqb "include_tasks") (DebugState.mk [(2, Some StepIn)] 0)
    no_stepping_thread (play_task "t1")
  = Some (DebugState.mk [] 0, AnsibleThread.mk 2 (Some StepOver) (Some (play_task "t1")))
  /\ wait_released (DebugState.mk [] 0) 2 = false.
Proof.
  split; [reflexivity |].
  destruct (resume_stepping_mode (String.eqb "include_tasks") (DebugState.mk [(2, Some StepIn)] 0)
              (DebugState.mk [] 0) no_stepping_thread
              (AnsibleThread.mk 2 (Some StepOver) (Some (play_task "t1"))) (play_task "t1"))
    as (_ & H & _); [repeat constructor; simpl; tauto | reflexivity |].
  exact H.
Defined.

(** A step-out requested at a task that has no include task among its
    ancestors leaves the thread in step-out mode with no stepping task.
    From then on [break_step_out] is always false and breakpoints are
    skipped in step-out mode, so the thread never stops again at any task
    boundary, whatever the breakpoints. *)
Theorem step_out_without_include_never_stops (is_include : string -> bool)
    (st st' : DebugState.t) (thread thread' : AnsibleThread.t) (task : Task.t) :
  resume_thread is_include st thread task = Some (st', thread') ->
  AnsibleThread.stepping_type thread' = Some StepOut ->
  include_ancestor is_include task = None ->
  forall dbg task' path line evaluate_conditional,
    stop_decision dbg thread' task' path line evaluate_conditional = None.
Proof.
  unfold resume_thread.
  destruct (dict_pop _ _) as [[a w] |]; [| discriminate].
  destruct a as [[| |] |]; simpl;
    [destruct (is_include (Task.action task)) | | |]; intros [= <- <-]; simpl;
    try discriminate.
  intros _ -> dbg task' path line ev. reflexivity.
Qed.

Lemma step_out_without_include_never_stops_witness :
  stop_decision (conditional_debugger "")
    (AnsibleThread.mk 2 (Some StepOut) None) (play_task "t2") main_path 5
    (fun _ => CondValue true) = None.
Proof.
  apply (step_out_without_include_never_stops (String.eqb "include_tasks")
           (DebugState.mk [(2, Some StepOut)] 0) (DebugState.mk [] 0)
           no_stepping_thread (AnsibleThread.mk 2 (Some StepOut) None) (play_task "t1"));
    reflexivity.
Defined.

(* ------------------------------------------------------------------ *)
(** ** The cancellation token and the receive side *)

Lemma filter_fresh_id (l : list nat) (cid : nat) :
  Forall (fun c => (c < cid)%nat) l ->
  List.filter (fun c => negb (Nat.eqb c cid)) (l ++ [cid]) = l.
Proof.
  induction 1 as [| c l Hc _ IH]; simpl.
  - rewrite Nat.eqb_refl. reflexivity.
  - destruct (Nat.eqb_spec c cid); [lia |]. simpl. rewrite IH. reflexivity.
Qed.

(** Bookkeeping of [with_cancel] around every guarded operation, given
    that the registered ids are below [_cancel_id] (true of a fresh token
    and kept by every operation): on a cancelled token the operation raises
    [CancelledError] before touching the socket or the token; otherwise it
    takes one fresh id and leaves no cancel function behind ([cancel_funcs]
    as before, or empty when [cancel()] ran during the call), the token is
    cancelled afterwards exactly when [cancel()] ran, and the invariant
    still holds. *)
Theorem guarded_op_bookkeeping (op : guarded_op) (tok : SCT.t) (cancel_during : bool)
    (outcome : sock_outcome) :
  Forall (fun c => (c < SCT.cancel_id tok)%nat) (SCT.cancel_funcs tok) ->
  let '(res, tok') := run_guarded op tok cancel_during outcome in
  (SCT.cancelled tok = true -> res = RaisedCancelledError /\ tok' = tok)
  /\ (SCT.cancelled tok = false ->
        SCT.cancel_funcs tok' = (if cancel_during then [] else SCT.cancel_funcs tok)
        /\ SCT.cancelled tok' = cancel_during
        /\ SCT.cancel_id tok' = S (SCT.cancel_id tok)
        /\ Forall (fun c => (c < SCT.cancel_id tok')%nat) (SCT.cancel_funcs tok')).
Proof.
  intros Hf. destruct tok as [funcs cid [|]]; simpl in *.
  - split; [auto | discriminate].
  - split; [discriminate | intros _].
    destruct cancel_during; simpl.
    + repeat split; constructor.
    + rewrite filter_fresh_id by exact Hf. repeat split.
      eapply Forall_impl; [exact Hf |]. intros c Hc. cbv beta in *. lia.
Qed.

Lemma guarded_op_bookkeeping_witness :
  run_guarded RecvInto (SCT.mk [] 0 false) false SockOk = (OpOk, SCT.mk [] 1 false).
Proof.
  pose proof (guarded_op_bookkeeping RecvInto (SCT.mk [] 0 false) false SockOk
                (List.Forall_nil _)) as H.
  destruct (run_guarded RecvInto (SCT.mk [] 0 false) false SockOk) as [res tok'] eqn:E.
  destruct H as [_ H]. destruct (H eq_refl) as (Hf & Hc & Hi & _).
  destruct tok' as [f i c]. simpl in Hf, Hc, Hi. subst.
  vm_compute in E. injection E as <-. reflexivity.
Defined.

(** How the receive task ends: in connect mode the end of the first
    connection attempt, whatever it is, finishes it; in listen mode it
    finishes exactly when some attempt ends otherwise than by the client
    closing its connection, which makes it wait for the next client. *)
Theorem recv_loop_finishes_iff (outcomes : list connection_outcome) :
  recv_loop Connect false outcomes = match outcomes with [] => false | _ :: _ => true end
  /\ recv_loop Listen false outcomes
     = existsb (fun o => match o with PeerClosed => false | _ => true end) outcomes.
Proof.
  split.
  - destruct outcomes as [| [] rest]; reflexivity.
  - induction outcomes as [| o rest IH]; [reflexivity |].
    destruct o; simpl; try reflexivity; [exact IH | destruct rest; reflexivity].
Qed.

Lemma firstn_firstn_skipn {A} (a b : nat) (l : list A) :
  firstn a l ++ firstn b (skipn a l) = firstn (a + b) l.
Proof.
  revert l. induction a as [| a IH]; intros l; [reflexivity |].
  destruct l as [| x l]; simpl; [rewrite firstn_nil; reflexivity |]. rewrite IH. reflexivity.
Qed.

Lemma socket_recv_loop_spec (n : Z) :
  forall counts read data buf,
  Forall (fun c => 0 < c) counts -> 0 <= read <= n -> n - read <= len counts ->
  socket_recv_loop counts n read data buf
  = Some (buf ++ firstn (Z.to_nat (n - read)) data, skipn (Z.to_nat (n - read)) data).
Proof.
  induction counts as [| c cs IH]; intros read data buf Hpos Hr Hn; simpl.
  - unfold len in Hn. simpl in Hn.
    destruct (Z.ltb_spec read n); [lia |].
    replace (Z.to_nat (n - read)) with O by lia. simpl. rewrite app_nil_r. reflexivity.
  - destruct (Z.ltb_spec read n) as [Hlt | Hge].
    2:{ replace (Z.to_nat (n - read)) with O by lia. simpl. rewrite app_nil_r. reflexivity. }
    apply Forall_cons_iff in Hpos as [Hc Hcs].
    assert (Hdata : 0 <= len data) by (unfold len; lia).
    set (d := Z.min c (Z.min (n - read) (len data))).
    destruct (Z.eqb_spec d 0) as [Hd | Hd].
    + assert (Hnil : data = []).
      { destruct data as [| x data]; [reflexivity |].
        exfalso. unfold d, len in Hd. simpl in Hd. lia. }
      subst data. rewrite !firstn_nil, !skipn_nil. reflexivity.
    + rewrite IH; [| exact Hcs | unfold d; lia | rewrite len_cons in Hn; unfold d; lia].
      rewrite <- app_assoc, firstn_firstn_skipn, skipn_skipn.
      replace (Z.to_nat d + Z.to_nat (n - (read + d)))%nat with (Z.to_nat (n - read)) by lia.
      replace (Z.to_nat (n - (read + d)) + Z.to_nat d)%nat with (Z.to_nat (n - read)) by lia.
      reflexivity.
Qed.

(** [SocketHelper.recv(n)] returns exactly the first [n] bytes of the
    stream, or all of it when the peer closes first, and consumes nothing
    more, however the kernel splits the data between [recv_into] calls
    (each of which delivers at least one byte before EOF). *)
Theorem socket_recv_reads_prefix (counts : list Z) (n : Z) (data : list Byte.byte) :
  Forall (fun c => 0 < c) counts -> 0 <= n -> n <= len counts ->
  socket_recv counts n data = Some (firstn (Z.to_nat n) data, skipn (Z.to_nat n) data).
Proof.
  intros Hpos Hn Hc. unfold socket_recv.
  rewrite socket_recv_loop_spec by (auto; lia). rewrite Z.sub_0_r. reflexivity.
Qed.

Lemma socket_recv_reads_prefix_witness :
  socket_recv [1; 2; 5] 3 [Byte.x01; Byte.x02; Byte.x03; Byte.x04]
  = Some ([Byte.x01; Byte.x02; Byte.x03], [Byte.x04]).
Proof.
  rewrite (socket_recv_reads_prefix [1; 2; 5] 3 [Byte.x01; Byte.x02; Byte.x03; Byte.x04]).
  - reflexivity.
  - repeat constructor.
  - lia.
  - reflexivity.
Defined.
